(** * Tetris engine (script.js): a shallow embedding and its properties

    The engine part of [script.js] is embedded function by function:
    the bag randomizer, the piece factory, the board operations
    ([collide], [merge], [clearLines]), the rotation with its wall kicks,
    and the command handlers ([move], [softDrop], [hardDrop],
    [togglePause], [startNewGame], [onKeyDown], [update]).

    Conventions of the embedding
    - JS numbers that only ever hold integers (coordinates, score, lines,
      level, the drop interval) are [Z]; the frame timestamps and the
      drop counter are rationals [Q], no property below depends on how
      they round.
    - Arrays are lists, read with stdpp's lookup and written with its
      insert; array indices are [nat] once the source has checked them.
    - The module-level [let] variables of the script are the fields of
      one record [State], threaded through every function.
    - A property access on [null]/[undefined] throws a TypeError in JS:
      functions that can do so return a [result], as do the functions
      with a [while] loop (they take a loop budget and report
      [OutOfFuel] when it is used up).
    - [Math.random] is an oracle: the n-th call of a session reads the
      n-th entry of a tape that is part of the state.
    - Canvas drawing, sound, the overlay text and [localStorage] are not
      modelled; of [drawBoard] only its effect on [flashTimer] and its
      call of [computeGhost] are kept. *)

From Stdlib Require Import ZArith QArith Lia.
From stdpp Require Import base list strings.

Local Open Scope Z_scope.

(** ** Results of functions that can throw or loop *)

Inductive result (A : Type) : Type :=
| Ok (a : A)
| TypeError
| OutOfFuel.

Arguments Ok {A} a.
Arguments TypeError {A}.
Arguments OutOfFuel {A}.

#[global] Instance result_ret : MRet result := fun A a => Ok a.
#[global] Instance result_bind : MBind result := fun A B f r =>
  match r with
  | Ok a => f a
  | TypeError => TypeError
  | OutOfFuel => OutOfFuel
  end.

(** ** Game constants *)

Definition COLS : Z := 10.
Definition ROWS : Z := 20.

(** [LINE_SCORES]: an object with the four keys 1..4. *)
Definition LINE_SCORES (n : Z) : option Z :=
  match n with
  | 1 => Some 40
  | 2 => Some 100
  | 3 => Some 300
  | 4 => Some 1200
  | _ => None
  end.

(** ** Tetrominoes *)

(** The keys of [TETROMINOES], in the order of the object literal. *)
Inductive Kind : Type := KI | KO | KT | KS | KZ | KJ | KL.

#[global] Instance Kind_eq_dec : EqDecision Kind.
Proof. solve_decision. Defined.

(** A shape matrix holds the numbers 0 and 1; a cell is tested with [!]. *)
Abbreviation Matrix := (list (list Z)).

Definition truthyNum (c : Z) : bool := negb (c =? 0).

Definition TETROMINO_color (k : Kind) : string :=
  match k with
  | KI => "#00d2ff"
  | KO => "#ffd400"
  | KT => "#b45cff"
  | KS => "#1ee37a"
  | KZ => "#ff4d4d"
  | KJ => "#3b7bff"
  | KL => "#ff9f1a"
  end.

Definition TETROMINO_matrix (k : Kind) : Matrix :=
  match k with
  | KI => [[0;0;0;0]; [1;1;1;1]; [0;0;0;0]; [0;0;0;0]]
  | KO => [[0;1;1;0]; [0;1;1;0]; [0;0;0;0]; [0;0;0;0]]
  | KT => [[0;1;0;0]; [1;1;1;0]; [0;0;0;0]; [0;0;0;0]]
  | KS => [[0;1;1;0]; [1;1;0;0]; [0;0;0;0]; [0;0;0;0]]
  | KZ => [[1;1;0;0]; [0;1;1;0]; [0;0;0;0]; [0;0;0;0]]
  | KJ => [[1;0;0;0]; [1;1;1;0]; [0;0;0;0]; [0;0;0;0]]
  | KL => [[0;0;1;0]; [1;1;1;0]; [0;0;0;0]; [0;0;0;0]]
  end.

(** [TYPES = Object.keys(TETROMINOES)] *)
Definition TYPES : list Kind := [KI; KO; KT; KS; KZ; KJ; KL].

(** ** Pieces and the board *)

(** A piece object [{type, matrix, color, x, y}]; the coordinates are
    named as [collide] and [merge] destructure them. *)
Record Piece : Type := mkPiece {
  ptype : Kind;
  matrix : Matrix;
  color : string;
  px : Z;
  py : Z;
}.

Definition set_px (p : Piece) (v : Z) : Piece :=
  mkPiece (ptype p) (matrix p) (color p) v (py p).
Definition set_py (p : Piece) (v : Z) : Piece :=
  mkPiece (ptype p) (matrix p) (color p) (px p) v.
Definition set_matrix (p : Piece) (m : Matrix) : Piece :=
  mkPiece (ptype p) m (color p) (px p) (py p).

(** A board cell is [null] or a colour string; the empty string is the
    one falsy string. *)
Abbreviation Cell := (option string).
Abbreviation Board := (list (list Cell)).

Definition truthyCell (c : Cell) : bool :=
  match c with
  | Some (String _ _) => true
  | _ => false
  end.

(** Truthiness of [row[x]]; past the end of the row the read is
    [undefined]. *)
Definition truthyAt (row : list Cell) (x : nat) : bool :=
  match row !! x with
  | Some c => truthyCell c
  | None => false
  end.

(** Truthiness of [b[by][bx]] for indices already known to be
    non-negative: a missing row makes the second access throw. *)
Definition boardAt (b : Board) (by_ bx : Z) : result bool :=
  match b !! Z.to_nat by_ with
  | None => TypeError
  | Some row => Ok (truthyAt row (Z.to_nat bx))
  end.

(** [b[by][bx] = c], for indices the caller has checked against [ROWS]
    and [COLS]. On the boards of the program every row has [COLS] cells,
    so the write never lands past the end of a row. *)
Definition boardSet (b : Board) (by_ bx : nat) (c : Cell) : result Board :=
  match b !! by_ with
  | None => TypeError
  | Some row => Ok (<[by_ := <[bx := c]> row]> b)
  end.

(** ** Helpers *)

Definition makeMatrix {A : Type} (h w : nat) (fill : A) : list (list A) :=
  replicate h (replicate w fill).

Definition cloneMatrix {A : Type} (m : list (list A)) : list (list A) :=
  map (fun row => row) m.

(** [[arr[i], arr[j]] = [arr[j], arr[i]]]: both reads, then the write to
    [arr[i]], then the write to [arr[j]]. *)
Definition swap {A : Type} (arr : list A) (i j : nat) : list A :=
  match arr !! i, arr !! j with
  | Some ai, Some aj => <[j := ai]> (<[i := aj]> arr)
  | _, _ => arr
  end.

(** The loop of [shuffleInPlace], for [i] from its start value down to 1.
    [tape pos] stands for the [pos]-th value of [Math.random]:
    [Math.floor(Math.random() * (i + 1))] is an index in [0, i], here
    [tape pos mod (i + 1)]. Returns the array and the next tape
    position. *)
Fixpoint shuffleLoop {A : Type} (i : nat) (arr : list A)
    (tape : nat -> nat) (pos : nat) : list A * nat :=
  match i with
  | O => (arr, pos)
  | S i' =>
      let j := (tape pos mod (i + 1))%nat in
      shuffleLoop i' (swap arr i j) tape (S pos)
  end.

Definition shuffleInPlace {A : Type} (arr : list A)
    (tape : nat -> nat) (pos : nat) : list A * nat :=
  shuffleLoop (length arr - 1)%nat arr tape pos.

(** [TETROMINOES[type]] is [undefined] for an [undefined] type, and
    reading [def.matrix] then throws. *)
Definition createPiece (type : option Kind) : result Piece :=
  match type with
  | None => TypeError
  | Some k =>
      Ok (mkPiece k (cloneMatrix (TETROMINO_matrix k)) (TETROMINO_color k)
            (COLS / 2 - 2) (-1))
  end.

(** ** collide *)

(** The inner loop of [collide] over the cells of matrix row [y], from
    column [x] on. [Ok true] is the early [return true]. *)
Fixpoint collideCells (b : Board) (px0 py0 : Z) (y : nat)
    (cells : list Z) (x : nat) : result bool :=
  match cells with
  | [] => Ok false
  | c :: rest =>
      if negb (truthyNum c) then collideCells b px0 py0 y rest (S x)
      else
        let bx := px0 + Z.of_nat x in
        let by_ := py0 + Z.of_nat y in
        if (bx <? 0) || (bx >=? COLS) || (by_ >=? ROWS) then Ok true
        else if by_ <? 0 then collideCells b px0 py0 y rest (S x)
        else
          occ ← boardAt b by_ bx;
          if (occ : bool) then Ok true
          else collideCells b px0 py0 y rest (S x)
  end.

(** The outer loop of [collide], from matrix row [y] on. *)
Fixpoint collideRows (b : Board) (px0 py0 : Z)
    (rows : Matrix) (y : nat) : result bool :=
  match rows with
  | [] => Ok false
  | cells :: rest =>
      hit ← collideCells b px0 py0 y cells 0;
      if (hit : bool) then Ok true
      else collideRows b px0 py0 rest (S y)
  end.

Definition collide (b : Board) (piece : Piece) : result bool :=
  collideRows b (px piece) (py piece) (matrix piece) 0.

(** ** merge *)

Fixpoint mergeCells (b : Board) (px0 py0 : Z) (col : string) (y : nat)
    (cells : list Z) (x : nat) : result Board :=
  match cells with
  | [] => Ok b
  | c :: rest =>
      if negb (truthyNum c) then mergeCells b px0 py0 col y rest (S x)
      else
        let by_ := py0 + Z.of_nat y in
        let bx := px0 + Z.of_nat x in
        if (by_ >=? 0) && (by_ <? ROWS) && (bx >=? 0) && (bx <? COLS) then
          b' ← boardSet b (Z.to_nat by_) (Z.to_nat bx) (Some col);
          mergeCells b' px0 py0 col y rest (S x)
        else mergeCells b px0 py0 col y rest (S x)
  end.

Fixpoint mergeRows (b : Board) (px0 py0 : Z) (col : string)
    (rows : Matrix) (y : nat) : result Board :=
  match rows with
  | [] => Ok b
  | cells :: rest =>
      b' ← mergeCells b px0 py0 col y cells 0;
      mergeRows b' px0 py0 col rest (S y)
  end.

Definition merge (b : Board) (piece : Piece) : result Board :=
  mergeRows b (px piece) (py piece) (color piece) (matrix piece) 0.

(** ** rotateClockwise *)

(** [matrix[y][x]] as a number; outside the matrix the read is
    [undefined], which is as falsy as 0 and is rendered as 0 (the loops
    of [rotateClockwise] stay inside a square matrix). *)
Definition matrixAt (m : Matrix) (y x : nat) : Z :=
  match m !! y with
  | Some row => default 0 (row !! x)
  | None => 0
  end.

(** [res[i][j] = v] *)
Definition matrixSet (res : Matrix) (i j : nat) (v : Z) : Matrix :=
  alter (fun row => <[j := v]> row) i res.

Definition rotateClockwise (m : Matrix) : Matrix :=
  let N := length m in
  foldl (fun res y =>
           foldl (fun res x => matrixSet res x (N - 1 - y)%nat (matrixAt m y x))
                 res (seq 0 N))
        (makeMatrix N N 0) (seq 0 N).

(** ** Session state *)

(** The [let] variables of the script, the [Math.random] tape with the
    number of calls made so far, and the [disabled] flags of the three
    buttons. *)
Record State : Type := mkState {
  board : Board;
  current : option Piece;
  next : option Piece;
  score : Z;
  lines : Z;
  level : Z;
  highScore : Z;
  running : bool;
  paused : bool;
  gameOver : bool;
  dropCounter : Q;
  lastTime : Q;
  dropInterval : Z;
  flashTimer : Z;
  bag : list Kind;
  randomTape : nat -> nat;
  randomCalls : nat;
  startBtnDisabled : bool;
  pauseBtnDisabled : bool;
  restartBtnDisabled : bool;
}.

Definition set_board (st : State) (v : Board) : State :=
  mkState v (current st) (next st) (score st) (lines st) (level st)
    (highScore st) (running st) (paused st) (gameOver st) (dropCounter st)
    (lastTime st) (dropInterval st) (flashTimer st) (bag st) (randomTape st)
    (randomCalls st) (startBtnDisabled st) (pauseBtnDisabled st)
    (restartBtnDisabled st).

Definition set_current (st : State) (v : option Piece) : State :=
  mkState (board st) v (next st) (score st) (lines st) (level st)
    (highScore st) (running st) (paused st) (gameOver st) (dropCounter st)
    (lastTime st) (dropInterval st) (flashTimer st) (bag st) (randomTape st)
    (randomCalls st) (startBtnDisabled st) (pauseBtnDisabled st)
    (restartBtnDisabled st).

Definition set_next (st : State) (v : option Piece) : State :=
  mkState (board st) (current st) v (score st) (lines st) (level st)
    (highScore st) (running st) (paused st) (gameOver st) (dropCounter st)
    (lastTime st) (dropInterval st) (flashTimer st) (bag st) (randomTape st)
    (randomCalls st) (startBtnDisabled st) (pauseBtnDisabled st)
    (restartBtnDisabled st).

Definition set_score (st : State) (v : Z) : State :=
  mkState (board st) (current st) (next st) v (lines st) (level st)
    (highScore st) (running st) (paused st) (gameOver st) (dropCounter st)
    (lastTime st) (dropInterval st) (flashTimer st) (bag st) (randomTape st)
    (randomCalls st) (startBtnDisabled st) (pauseBtnDisabled st)
    (restartBtnDisabled st).

Definition set_lines (st : State) (v : Z) : State :=
  mkState (board st) (current st) (next st) (score st) v (level st)
    (highScore st) (running st) (paused st) (gameOver st) (dropCounter st)
    (lastTime st) (dropInterval st) (flashTimer st) (bag st) (randomTape st)
    (randomCalls st) (startBtnDisabled st) (pauseBtnDisabled st)
    (restartBtnDisabled st).

Definition set_level (st : State) (v : Z) : State :=
  mkState (board st) (current st) (next st) (score st) (lines st) v
    (highScore st) (running st) (paused st) (gameOver st) (dropCounter st)
    (lastTime st) (dropInterval st) (flashTimer st) (bag st) (randomTape st)
    (randomCalls st) (startBtnDisabled st) (pauseBtnDisabled st)
    (restartBtnDisabled st).

Definition set_highScore (st : State) (v : Z) : State :=
  mkState (board st) (current st) (next st) (score st) (lines st) (level st)
    v (running st) (paused st) (gameOver st) (dropCounter st) (lastTime st)
    (dropInterval st) (flashTimer st) (bag st) (randomTape st)
    (randomCalls st) (startBtnDisabled st) (pauseBtnDisabled st)
    (restartBtnDisabled st).

Definition set_running (st : State) (v : bool) : State :=
  mkState (board st) (current st) (next st) (score st) (lines st) (level st)
    (highScore st) v (paused st) (gameOver st) (dropCounter st)
    (lastTime st) (dropInterval st) (flashTimer st) (bag st) (randomTape st)
    (randomCalls st) (startBtnDisabled st) (pauseBtnDisabled st)
    (restartBtnDisabled st).

Definition set_paused (st : State) (v : bool) : State :=
  mkState (board st) (current st) (next st) (score st) (lines st) (level st)
    (highScore st) (running st) v (gameOver st) (dropCounter st)
    (lastTime st) (dropInterval st) (flashTimer st) (bag st) (randomTape st)
    (randomCalls st) (startBtnDisabled st) (pauseBtnDisabled st)
    (restartBtnDisabled st).

Definition set_gameOver (st : State) (v : bool) : State :=
  mkState (board st) (current st) (next st) (score st) (lines st) (level st)
    (highScore st) (running st) (paused st) v (dropCounter st) (lastTime st)
    (dropInterval st) (flashTimer st) (bag st) (randomTape st)
    (randomCalls st) (startBtnDisabled st) (pauseBtnDisabled st)
    (restartBtnDisabled st).

Definition set_dropCounter (st : State) (v : Q) : State :=
  mkState (board st) (current st) (next st) (score st) (lines st) (level st)
    (highScore st) (running st) (paused st) (gameOver st) v (lastTime st)
    (dropInterval st) (flashTimer st) (bag st) (randomTape st)
    (randomCalls st) (startBtnDisabled st) (pauseBtnDisabled st)
    (restartBtnDisabled st).

Definition set_lastTime (st : State) (v : Q) : State :=
  mkState (board st) (current st) (next st) (score st) (lines st) (level st)
    (highScore st) (running st) (paused st) (gameOver st) (dropCounter st) v
    (dropInterval st) (flashTimer st) (bag st) (randomTape st)
    (randomCalls st) (startBtnDisabled st) (pauseBtnDisabled st)
    (restartBtnDisabled st).

Definition set_dropInterval (st : State) (v : Z) : State :=
  mkState (board st) (current st) (next st) (score st) (lines st) (level st)
    (highScore st) (running st) (paused st) (gameOver st) (dropCounter st)
    (lastTime st) v (flashTimer st) (bag st) (randomTape st)
    (randomCalls st) (startBtnDisabled st) (pauseBtnDisabled st)
    (restartBtnDisabled st).

Definition set_flashTimer (st : State) (v : Z) : State :=
  mkState (board st) (current st) (next st) (score st) (lines st) (level st)
    (highScore st) (running st) (paused st) (gameOver st) (dropCounter st)
    (lastTime st) (dropInterval st) v (bag st) (randomTape st)
    (randomCalls st) (startBtnDisabled st) (pauseBtnDisabled st)
    (restartBtnDisabled st).

Definition set_bag (st : State) (v : list Kind) : State :=
  mkState (board st) (current st) (next st) (score st) (lines st) (level st)
    (highScore st) (running st) (paused st) (gameOver st) (dropCounter st)
    (lastTime st) (dropInterval st) (flashTimer st) v (randomTape st)
    (randomCalls st) (startBtnDisabled st) (pauseBtnDisabled st)
    (restartBtnDisabled st).

Definition set_randomCalls (st : State) (v : nat) : State :=
  mkState (board st) (current st) (next st) (score st) (lines st) (level st)
    (highScore st) (running st) (paused st) (gameOver st) (dropCounter st)
    (lastTime st) (dropInterval st) (flashTimer st) (bag st) (randomTape st)
    v (startBtnDisabled st) (pauseBtnDisabled st) (restartBtnDisabled st).

Definition set_startBtnDisabled (st : State) (v : bool) : State :=
  mkState (board st) (current st) (next st) (score st) (lines st) (level st)
    (highScore st) (running st) (paused st) (gameOver st) (dropCounter st)
    (lastTime st) (dropInterval st) (flashTimer st) (bag st) (randomTape st)
    (randomCalls st) v (pauseBtnDisabled st) (restartBtnDisabled st).

Definition set_pauseBtnDisabled (st : State) (v : bool) : State :=
  mkState (board st) (current st) (next st) (score st) (lines st) (level st)
    (highScore st) (running st) (paused st) (gameOver st) (dropCounter st)
    (lastTime st) (dropInterval st) (flashTimer st) (bag st) (randomTape st)
    (randomCalls st) (startBtnDisabled st) v (restartBtnDisabled st).

Definition set_restartBtnDisabled (st : State) (v : bool) : State :=
  mkState (board st) (current st) (next st) (score st) (lines st) (level st)
    (highScore st) (running st) (paused st) (gameOver st) (dropCounter st)
    (lastTime st) (dropInterval st) (flashTimer st) (bag st) (randomTape st)
    (randomCalls st) (startBtnDisabled st) (pauseBtnDisabled st) v.

(** ** The 7-bag *)

(** [if (bag.length === 0) bag = shuffleInPlace(TYPES.slice())] *)
Definition refillBag (st : State) : State :=
  match bag st with
  | [] =>
      let '(arr, pos) := shuffleInPlace TYPES (randomTape st) (randomCalls st) in
      set_randomCalls (set_bag st arr) pos
  | _ :: _ => st
  end.

(** [bag.pop()]: the last entry, [undefined] on an empty array. *)
Definition popBag (st : State) : option Kind * State :=
  (last (bag st), set_bag st (removelast (bag st))).

Definition takeFromBag (st : State) : option Kind * State :=
  popBag (refillBag st).

(** ** tryRotate *)

(** The [for (const dx of kicks)] loop: [Some p] is the piece as left by
    the first offset that does not collide. *)
Fixpoint tryKicks (b : Board) (piece : Piece) (ox : Z) (kicks : list Z)
    : result (option Piece) :=
  match kicks with
  | [] => Ok None
  | dx :: rest =>
      let piece' := set_px piece (ox + dx) in
      hit ← collide b piece';
      if (hit : bool) then tryKicks b piece' ox rest
      else Ok (Some piece')
  end.

(** Returns the piece after the call and the boolean the call returns. *)
Definition tryRotate (b : Board) (piece : Piece) : result (Piece * bool) :=
  let original := matrix piece in
  let rotated := rotateClockwise original in
  let piece1 := set_matrix piece rotated in
  let kicks := [0; -1; 1; -2; 2] in
  let ox := px piece1 in
  r ← tryKicks b piece1 ox kicks;
  match r with
  | Some p => Ok (p, true)
  | None => Ok (set_matrix (set_px piece1 ox) original, false)
  end.

(** ** clearLines *)

(** The inner loop of [clearLines] over the columns of one row: [false]
    as soon as a cell is falsy ([continue outer]). *)
Definition fullRowb (row : list Cell) : bool :=
  forallb (truthyAt row) (seq 0 (Z.to_nat COLS)).

(** The same on [board[y]]; a missing row makes [board[y][x]] throw. *)
Definition rowFull (b : Board) (y : nat) : result bool :=
  match b !! y with
  | None => TypeError
  | Some row => Ok (fullRowb row)
  end.

Definition emptyRow : list Cell := replicate (Z.to_nat COLS) None.

(** The [outer] loop with the loop variable [y] and the counter
    [cleared]. After a removal the source increments [y] and the loop
    header decrements it again: the same index is examined next. *)
Fixpoint clearLoop (fuel : nat) (b : Board) (y : Z) (cleared : Z)
    : result (Board * Z) :=
  if y <? 0 then Ok (b, cleared)
  else
    match fuel with
    | O => OutOfFuel
    | S fuel' =>
        full ← rowFull b (Z.to_nat y);
        if (full : bool) then
          clearLoop fuel' (emptyRow :: delete (Z.to_nat y) b) y (cleared + 1)
        else clearLoop fuel' b (y - 1) cleared
    end.

(** The bookkeeping of [clearLines] after the loop. *)
Definition applyCleared (st : State) (cleared : Z) : State :=
  if cleared >? 0 then
    let st := set_lines st (lines st + cleared) in
    let add := default 0 (LINE_SCORES cleared) * level st in
    let st := set_score st (score st + add) in
    let newLevel := lines st / 10 + 1 in
    let st := if negb (newLevel =? level st) then set_level st newLevel
              else st in
    let st := set_dropInterval st (Z.max 90 (900 - (level st - 1) * 70)) in
    set_flashTimer st 9
  else st.

Definition clearLines (fuel : nat) (st : State) : result State :=
  r ← clearLoop fuel (board st) (ROWS - 1) 0;
  Ok (applyCleared (set_board st (fst r)) (snd r)).

(** ** Ghost, drops and lock *)

(** The [while] loop of [computeGhost]. *)
Fixpoint ghostLoop (fuel : nat) (b : Board) (ghost : Piece) : result Piece :=
  match fuel with
  | O => OutOfFuel
  | S fuel' =>
      hit ← collide b (set_py ghost (py ghost + 1));
      if (hit : bool) then Ok ghost
      else ghostLoop fuel' b (set_py ghost (py ghost + 1))
  end.

Definition computeGhost (fuel : nat) (b : Board) (piece : Piece)
    : result Piece :=
  ghostLoop fuel b piece.

(** The part of [updateHUD] that is state: the running high score. *)
Definition updateHUD (st : State) : State :=
  if score st >? highScore st then set_highScore st (score st) else st.

Definition setGameOver (st : State) : State :=
  let st := set_running st false in
  let st := set_paused st false in
  let st := set_gameOver st true in
  let st := set_pauseBtnDisabled st true in
  let st := set_startBtnDisabled st false in
  let st := set_restartBtnDisabled st false in
  updateHUD st.

(** Dereferencing [current] when it is [null] throws. *)
Definition getCurrent (st : State) : result Piece :=
  match current st with
  | Some p => Ok p
  | None => TypeError
  end.

Definition lockPiece (fuel : nat) (st : State) : result State :=
  cur ← getCurrent st;
  b ← merge (board st) cur;
  st ← clearLines fuel (set_board st b);
  let st := set_current st (next st) in
  let '(k, st) := takeFromBag st in
  np ← createPiece k;
  let st := set_next st (Some np) in
  cur' ← getCurrent st;
  hit ← collide (board st) cur';
  let st := if (hit : bool) then setGameOver st else st in
  Ok (updateHUD st).

(** Returns the state and the boolean [dropOne] returns. *)
Definition dropOne (fuel : nat) (st : State) : result (State * bool) :=
  cur ← getCurrent st;
  let cur1 := set_py cur (py cur + 1) in
  hit ← collide (board st) cur1;
  if (hit : bool) then
    st' ← lockPiece fuel (set_current st (Some (set_py cur1 (py cur1 - 1))));
    Ok (st', true)
  else Ok (set_current st (Some cur1), false).

(** The [while] loop of [hardDrop] with its counter [dist]. *)
Fixpoint hardDropLoop (fuel : nat) (b : Board) (cur : Piece) (dist : Z)
    : result (Piece * Z) :=
  match fuel with
  | O => OutOfFuel
  | S fuel' =>
      hit ← collide b (set_py cur (py cur + 1));
      if (hit : bool) then Ok (cur, dist)
      else hardDropLoop fuel' b (set_py cur (py cur + 1)) (dist + 1)
  end.

Definition hardDrop (fuel : nat) (st : State) : result State :=
  cur ← getCurrent st;
  r ← hardDropLoop fuel (board st) cur 0;
  let st := set_current st (Some (fst r)) in
  let st := set_score st (score st + snd r * 2) in
  lockPiece fuel st.

Definition softDrop (fuel : nat) (st : State) : result State :=
  r ← dropOne fuel st;
  let st := fst r in
  let st := if negb (snd r) then set_score st (score st + 1) else st in
  Ok (updateHUD st).

(** ** Control actions *)

Definition move (dx : Z) (st : State) : result State :=
  cur ← getCurrent st;
  let cur1 := set_px cur (px cur + dx) in
  hit ← collide (board st) cur1;
  if (hit : bool) then Ok (set_current st (Some (set_px cur1 (px cur1 - dx))))
  else Ok (set_current st (Some cur1)).

Definition startNewGame (st : State) : result State :=
  let st := set_board st (makeMatrix (Z.to_nat ROWS) (Z.to_nat COLS) None) in
  let st := set_score st 0 in
  let st := set_lines st 0 in
  let st := set_level st 1 in
  let st := set_dropInterval st 900 in
  let st := set_bag st [] in
  let '(k, st) := takeFromBag st in
  p ← createPiece k;
  let st := set_current st (Some p) in
  let '(k, st) := takeFromBag st in
  p ← createPiece k;
  let st := set_next st (Some p) in
  let st := set_running st true in
  let st := set_paused st false in
  let st := set_gameOver st false in
  let st := set_dropCounter st (inject_Z 0) in
  let st := updateHUD st in
  let st := set_pauseBtnDisabled st false in
  let st := set_restartBtnDisabled st false in
  Ok (set_startBtnDisabled st true).

Definition togglePause (st : State) : State :=
  if negb (running st) || gameOver st then st
  else set_paused st (negb (paused st)).

(** The [current] piece as [tryRotate(current)] leaves it. *)
Definition rotateCurrent (st : State) : result State :=
  cur ← getCurrent st;
  r ← tryRotate (board st) cur;
  Ok (set_current st (Some (fst r))).

(** ** Main loop *)

(** What [drawBoard] does besides drawing: it counts [flashTimer] down
    and, when there is a current piece, computes its ghost. *)
Definition drawBoard (fuel : nat) (st : State) : result State :=
  let st := if flashTimer st >? 0 then set_flashTimer st (flashTimer st - 1)
            else st in
  match current st with
  | None => Ok st
  | Some cur =>
      _ ← computeGhost fuel (board st) cur;
      Ok st
  end.

(** One frame: [update(time)] up to its [requestAnimationFrame]. *)
Definition update (fuel : nat) (time : Q) (st : State) : result State :=
  let delta := Qminus time (lastTime st) in
  let st := set_lastTime st time in
  st ← (if running st && negb (paused st) && negb (gameOver st) then
          let st := set_dropCounter st (Qplus (dropCounter st) delta) in
          if Qle_bool (inject_Z (dropInterval st)) (dropCounter st) then
            r ← dropOne fuel st;
            Ok (set_dropCounter (fst r) (inject_Z 0))
          else Ok st
        else Ok st);
  drawBoard fuel st.

(** ** Input *)

(** The values of [e.code] the handler distinguishes; [OtherKey] is any
    other key. *)
Inductive KeyCode : Type :=
| Space | Enter | KeyP | ArrowLeft | ArrowRight | ArrowDown | ArrowUp
| OtherKey.

Record KeyEvent : Type := mkKeyEvent {
  code : KeyCode;
  repeat : bool;
}.

Definition onKeyDown (fuel : nat) (e : KeyEvent) (st : State)
    : result State :=
  if negb (running st) then
    match code e with
    | Space | Enter => startNewGame st
    | _ => Ok st
    end
  else if gameOver st then Ok st
  else
    match code e with
    | KeyP => Ok (togglePause st)
    | c =>
        if paused st then Ok st
        else
          match c with
          | ArrowLeft => move (-1) st
          | ArrowRight => move 1 st
          | ArrowDown => softDrop fuel st
          | ArrowUp => if negb (repeat e) then rotateCurrent st else Ok st
          | Space => if negb (repeat e) then hardDrop fuel st else Ok st
          | _ => Ok st
          end
    end.

(** Everything the page can send to the engine: a key, a click on one of
    the three buttons (with the listeners [init] registers), a frame. *)
Inductive Command : Type :=
| KeyDown (e : KeyEvent)
| StartClick
| PauseClick
| RestartClick
| Frame (time : Q).

Definition dispatch (fuel : nat) (cmd : Command) (st : State)
    : result State :=
  match cmd with
  | KeyDown e => onKeyDown fuel e st
  | StartClick => startNewGame st
  | PauseClick => Ok (togglePause st)
  | RestartClick => startNewGame st
  | Frame time => update fuel time st
  end.

(** The state right after the script has run [init]: no game yet. The
    stored high score and the initial [disabled] flags come from outside
    the script. *)
Definition initState (tape : nat -> nat) (hs : Z) (sb pb rb : bool) : State :=
  mkState (makeMatrix (Z.to_nat ROWS) (Z.to_nat COLS) None) None None
    0 0 1 hs false false false (inject_Z 0) (inject_Z 0) 900 0 []
    tape 0 sb pb rb.

(** ** Vocabulary of the properties *)

(** Cell [(y, x)] of a shape matrix is occupied. *)
Definition occupiedCell (m : Matrix) (y x : nat) : Prop :=
  exists row c, m !! y = Some row /\ row !! x = Some c /\ truthyNum c = true.

(** Board cell at row [r], column [c] holds a colour. *)
Definition boardOccupied (b : Board) (r c : Z) : Prop :=
  exists row v,
    b !! Z.to_nat r = Some row /\ row !! Z.to_nat c = Some v /\
    truthyCell v = true.

(** The cell [(y, x)] of a piece at [(px0, py0)] lands outside the
    columns, at or below row [ROWS], or on an occupied board cell of a
    row [>= 0]. *)
Definition blocked (b : Board) (px0 py0 : Z) (y x : nat) : Prop :=
  let bx := px0 + Z.of_nat x in
  let by_ := py0 + Z.of_nat y in
  bx < 0 \/ COLS <= bx \/ ROWS <= by_ \/ (0 <= by_ /\ boardOccupied b by_ bx).

(** A board with [ROWS] rows of [COLS] cells. *)
Definition wfBoard (b : Board) : Prop :=
  length b = Z.to_nat ROWS /\ Forall (fun row => length row = Z.to_nat COLS) b.

(** The matrix of [N] rows and [N] columns whose cell [(i, j)] is
    [f i j]. *)
Definition tabulate (N : nat) (f : nat -> nat -> Z) : Matrix :=
  (fun i => (fun j => f i j) <$> seq 0 N) <$> seq 0 N.

(** An [N] by [N] matrix. *)
Definition square (N : nat) (m : Matrix) : Prop :=
  length m = N /\ Forall (fun row => length row = N) m.

(** The piece [tryRotate] tests for the kick [dx]: the rotated shape at
    column [x + dx], same row. *)
Definition candidate (p : Piece) (dx : Z) : Piece :=
  mkPiece (ptype p) (rotateClockwise (matrix p)) (color p) (px p + dx) (py p).

(** Sample data: the empty board and the pieces at their spawn position. *)
Definition emptyBoard : Board :=
  makeMatrix (Z.to_nat ROWS) (Z.to_nat COLS) None.

Definition spawned (k : Kind) : Piece :=
  mkPiece k (TETROMINO_matrix k) (TETROMINO_color k) 3 (-1).

(** Every column of the row holds a colour. *)
Definition fullRow (row : list Cell) : Prop :=
  forall x, (x < Z.to_nat COLS)%nat ->
    exists v, row !! x = Some v /\ truthyCell v = true.

(** The rows of a board that are not full, in their order, and the
    number of full ones. *)
Definition survivors (b : Board) : Board :=
  filter (fun row => fullRowb row = false) b.

Definition fullCount (b : Board) : nat :=
  length (filter (fun row => fullRowb row = true) b).

(** The state in which [lockPiece] leaves the session when the merged
    board is [b1], the piece drawn for [next] is [np], the bag and the
    tape position after the draw are [bag'] and [calls'], and [over]
    tells whether the promoted piece collides at its spawn position. *)
Definition lockedState (st : State) (b1 : Board) (np : Piece)
    (bag' : list Kind) (calls' : nat) (over : bool) : State :=
  let st := set_board st (replicate (fullCount b1) emptyRow ++ survivors b1) in
  let st := applyCleared st (Z.of_nat (fullCount b1)) in
  let st := set_current st (next st) in
  let st := set_randomCalls (set_bag st bag') calls' in
  let st := set_next st (Some np) in
  let st := if over then setGameOver st else st in
  updateHUD st.

(** [LINE_SCORES[n] || 0] *)
Definition lineScore (n : Z) : Z := default 0 (LINE_SCORES n).

(** A shape matrix without an occupied cell. *)
Definition emptyShape (m : Matrix) : Prop :=
  Forall (Forall (fun c => truthyNum c = false)) m.

(** The empty board with the colour of the O piece in columns 4 and 5 of
    its two bottom rows. *)
Definition rowWithO : list Cell :=
  [None; None; None; None; Some (TETROMINO_color KO);
   Some (TETROMINO_color KO); None; None; None; None].

Definition boardWithO : Board := replicate 18 emptyRow ++ [rowWithO; rowWithO].

(** A [Math.random] tape whose first shuffle leaves O at the end of the
    bag, so that a new game starts with the O piece. *)
Definition tapeO (n : nat) : nat :=
  match n with
  | O => 1%nat
  | S _ => 0%nat
  end.

(** ** States of the session and classes of commands *)

(** No game yet; a game interrupted by the pause toggle; a game ended by
    [setGameOver]. *)
Definition isIdle (st : State) : Prop :=
  running st = false /\ paused st = false /\ gameOver st = false.

Definition isPaused (st : State) : Prop :=
  running st = true /\ paused st = true /\ gameOver st = false.

Definition isGameOver (st : State) : Prop :=
  running st = false /\ paused st = false /\ gameOver st = true.

(** The commands that ask for a new game: Space or Enter, the Start
    button, the Restart button. *)
Definition startsNewGame (cmd : Command) : Prop :=
  match cmd with
  | KeyDown e => code e = Space \/ code e = Enter
  | StartClick | RestartClick => True
  | _ => False
  end.

(** The clicks among them. *)
Definition newGameClick (cmd : Command) : Prop :=
  match cmd with
  | StartClick | RestartClick => True
  | _ => False
  end.

(** The commands that toggle the pause: the P key, the Pause button. *)
Definition togglesPause (cmd : Command) : Prop :=
  match cmd with
  | KeyDown e => code e = KeyP
  | PauseClick => True
  | _ => False
  end.

(** [st'] differs from [st] at most in the frame clock [lastTime] and
    the flash countdown [flashTimer]: board, pieces, score, lines,
    level, flags, gravity counter, speed, bag, tape position and buttons
    are the same. *)
Definition sameGame (st st' : State) : Prop :=
  board st' = board st /\ current st' = current st /\ next st' = next st /\
  score st' = score st /\ lines st' = lines st /\ level st' = level st /\
  highScore st' = highScore st /\ running st' = running st /\
  paused st' = paused st /\ gameOver st' = gameOver st /\
  dropCounter st' = dropCounter st /\ dropInterval st' = dropInterval st /\
  bag st' = bag st /\ randomCalls st' = randomCalls st /\
  startBtnDisabled st' = startBtnDisabled st /\
  pauseBtnDisabled st' = pauseBtnDisabled st /\
  restartBtnDisabled st' = restartBtnDisabled st.

(** The commands of a list, one after the other. *)
Fixpoint runCommands (fuel : nat) (cmds : list Command) (st : State)
    : result State :=
  match cmds with
  | [] => Ok st
  | cmd :: rest => st' ← dispatch fuel cmd st; runCommands fuel rest st'
  end.

(** A session: the page is loaded, Start is clicked (the O piece comes
    first), Space drops it, P pauses the game. *)
Definition pausedSession : result State :=
  runCommands 64
    [StartClick; KeyDown (mkKeyEvent Space false);
     KeyDown (mkKeyEvent KeyP false)]
    (initState tapeO 0 false true true).

(** ** Consecutive draws from the bag *)

(** The values of [n] calls of [takeFromBag] in a row, and the state
    after them. *)
Fixpoint drawN (n : nat) (st : State) : list (option Kind) :=
  match n with
  | O => []
  | S n' => fst (takeFromBag st) :: drawN n' (snd (takeFromBag st))
  end.

Fixpoint afterDraws (n : nat) (st : State) : State :=
  match n with
  | O => st
  | S n' => afterDraws n' (snd (takeFromBag st))
  end.

(** How many of the draws are the kind [k]. *)
Definition countKind (k : Kind) (l : list (option Kind)) : nat :=
  length (filter (fun x => x = Some k) l).

(** ** Sample sessions and boards *)

(** The state of a result, [d] when there is none. *)
Definition okState (r : result State) (d : State) : State :=
  match r with
  | Ok st => st
  | _ => d
  end.

(** The page as loaded, with the tape [tapeO]; after a click on Start;
    after Space; after P; after a click on Restart during the pause. *)
Definition loadedState : State := initState tapeO 0 false true true.

Definition startedState : State :=
  okState (dispatch 64 StartClick loadedState) loadedState.

Definition droppedState : State :=
  okState (dispatch 64 (KeyDown (mkKeyEvent Space false)) startedState)
    loadedState.

Definition pausedState : State := okState pausedSession loadedState.

Definition restartedState : State :=
  okState (dispatch 64 RestartClick pausedState) loadedState.

(** A full row, and a board whose rows from the top are full, full, the
    O row, then empty rows. *)
Definition paintedRow : list Cell :=
  replicate (Z.to_nat COLS) (Some (TETROMINO_color KI)).

Definition topFullBoard : Board :=
  [paintedRow; paintedRow; rowWithO] ++ replicate 17 emptyRow.

(** A board whose bottom row lacks columns 4 and 5 only, and a state in
    which the O piece rests on its floor above that gap. *)
Definition gapRow : list Cell :=
  replicate 4 (Some (TETROMINO_color KI)) ++ [None; None] ++
  replicate 4 (Some (TETROMINO_color KI)).

Definition gapBoard : Board := replicate 19 emptyRow ++ [gapRow].

Definition gapState : State :=
  set_current (set_board startedState gapBoard)
    (Some (set_py (spawned KO) 18)).

(** The T piece at its spawn position after one, two, three and four
    quarter turns without kick. *)
Definition turnedT (n : nat) : Piece :=
  Nat.iter n (fun p => candidate p 0) (spawned KT).


(** ** Vocabulary of the further properties *)

(** The cell of the board at row [r], column [c], when there is one. *)
Definition boardCell (b : Board) (r c : nat) : option Cell :=
  match b !! r with
  | Some row => row !! c
  | None => None
  end.

(** Some occupied cell of a shape [m] placed at [(px0, py0)] lands on
    row [r], column [c]. *)
Definition covers (px0 py0 : Z) (m : Matrix) (r c : nat) : Prop :=
  exists y x,
    occupiedCell m y x /\
    py0 + Z.of_nat y = Z.of_nat r /\ px0 + Z.of_nat x = Z.of_nat c.

(** A piece as the game makes them: a 4 by 4 shape with an occupied
    cell, at the spawn row or below. *)
Definition pieceOk (p : Piece) : Prop :=
  square 4 (matrix p) /\
  (exists r c, occupiedCell (matrix p) r c) /\
  -1 <= py p.

(** What holds of the session between two commands, from the loading
    of the page on. *)
Record engineInv (st : State) : Prop := mkEngineInv {
  inv_board : wfBoard (board st);
  inv_rows : Forall (fun row => ~ fullRow row) (board st);
  inv_current : forall p, current st = Some p -> pieceOk p;
  inv_next : forall p, next st = Some p -> pieceOk p;
  inv_pieces :
    running st = true -> is_Some (current st) /\ is_Some (next st);
  inv_free :
    running st = true -> gameOver st = false ->
    forall p, current st = Some p -> collide (board st) p = Ok false;
  inv_lines : 0 <= lines st;
  inv_score : 0 <= score st;
  inv_level : level st = lines st / 10 + 1;
  inv_speed : dropInterval st = Z.max 90 (900 - (level st - 1) * 70);
  inv_bag : NoDup (bag st) /\ (length (bag st) <= 7)%nat;
  inv_high :
    running st = true \/ gameOver st = true -> score st <= highScore st;
}.

(** Score and lines of [st'] are at least those of [st]. *)
Definition grows (st st' : State) : Prop :=
  score st <= score st' /\ lines st <= lines st'.

(** The commands that do not start a new game in the state [st]: all
    but the clicks on Start and Restart and, when no game runs, the
    keys Space and Enter. *)
Definition keepsGame (st : State) (cmd : Command) : Prop :=
  match cmd with
  | StartClick | RestartClick => False
  | KeyDown e => running st = true \/ (code e <> Space /\ code e <> Enter)
  | _ => True
  end.

(** ** Properties of [collide] *)

Lemma boardAt_rows (b : Board) (r c : Z) :
  length b = Z.to_nat ROWS -> 0 <= r < ROWS ->
  exists row, b !! Z.to_nat r = Some row /\
              boardAt b r c = Ok (truthyAt row (Z.to_nat c)).
Proof.
  intros Hlen Hr.
  destruct (b !! Z.to_nat r) as [row|] eqn:E.
  - exists row. split; [reflexivity|]. unfold boardAt. rewrite E. reflexivity.
  - apply lookup_ge_None in E. lia.
Qed.

Lemma truthyAt_occupied (b : Board) (row : list Cell) (r c : Z) :
  b !! Z.to_nat r = Some row ->
  truthyAt row (Z.to_nat c) = true <-> boardOccupied b r c.
Proof.
  intros Hrow. unfold truthyAt, boardOccupied. split.
  - destruct (row !! Z.to_nat c) as [v|] eqn:E; [|discriminate].
    intros Hv. exists row, v. auto.
  - intros (row' & v & H1 & H2 & H3).
    rewrite Hrow in H1. injection H1 as <-. rewrite H2. exact H3.
Qed.

Lemma collideCells_total (b : Board) (px0 py0 : Z) (y : nat) (cells : list Z) :
  length b = Z.to_nat ROWS ->
  forall x, exists r, collideCells b px0 py0 y cells x = Ok r.
Proof.
  intros Hlen. induction cells as [|c rest IH]; intros x; simpl.
  - eauto.
  - destruct (truthyNum c); simpl; [|apply IH].
    destruct (_ || _) eqn:Eout; [eauto|].
    destruct (py0 + Z.of_nat y <? 0) eqn:Eneg; [apply IH|].
    destruct (boardAt_rows b (py0 + Z.of_nat y) (px0 + Z.of_nat x) Hlen)
      as (row & _ & ->); [lia|].
    simpl. destruct (truthyAt _ _); [eauto|apply IH].
Qed.

Lemma collideCells_true (b : Board) (px0 py0 : Z) (y : nat) (cells : list Z) :
  length b = Z.to_nat ROWS ->
  forall x,
    collideCells b px0 py0 y cells x = Ok true <->
    exists i c, cells !! i = Some c /\ truthyNum c = true /\
                blocked b px0 py0 y (x + i).
Proof.
  intros Hlen. induction cells as [|c rest IH]; intros x; simpl.
  - split; [discriminate|]. intros (i & c & H & _). discriminate.
  - assert (Hshift : (exists i c0, rest !! i = Some c0 /\ truthyNum c0 = true /\
                        blocked b px0 py0 y (S x + i)) ->
                     exists i c0, (c :: rest) !! i = Some c0 /\
                        truthyNum c0 = true /\ blocked b px0 py0 y (x + i)).
    { intros (i & c0 & H1 & H2 & H3). exists (S i), c0.
      repeat split; auto. replace (x + S i)%nat with (S x + i)%nat by lia.
      exact H3. }
    destruct (truthyNum c) eqn:Ec; simpl.
    + destruct (_ || _) eqn:Eout.
      * split; [|reflexivity]. intros _. exists 0%nat, c.
        repeat split; auto. unfold blocked. rewrite Nat.add_0_r. lia.
      * destruct (py0 + Z.of_nat y <? 0) eqn:Eneg.
        -- rewrite IH. split; [apply Hshift|].
           intros (i & c0 & H1 & H2 & H3). destruct i as [|i].
           ++ exfalso. rewrite Nat.add_0_r in H3. unfold blocked in H3. lia.
           ++ exists i, c0. repeat split; auto.
              replace (S x + i)%nat with (x + S i)%nat by lia. exact H3.
        -- destruct (boardAt_rows b (py0 + Z.of_nat y) (px0 + Z.of_nat x) Hlen)
             as (row & Hrow & ->); [lia|].
           simpl. destruct (truthyAt _ _) eqn:Eocc.
           ++ split; [|reflexivity]. intros _. exists 0%nat, c.
              repeat split; auto. unfold blocked. rewrite Nat.add_0_r.
              right. right. right. split; [lia|].
              apply (truthyAt_occupied b row); assumption.
           ++ rewrite IH. split; [apply Hshift|].
              intros (i & c0 & H1 & H2 & H3). destruct i as [|i].
              ** exfalso. rewrite Nat.add_0_r in H3.
                 destruct H3 as [H3|[H3|[H3|[_ H3]]]]; try lia.
                 apply (truthyAt_occupied b row) in H3; [|assumption].
                 congruence.
              ** exists i, c0. repeat split; auto.
                 replace (S x + i)%nat with (x + S i)%nat by lia. exact H3.
    + rewrite IH. split; [apply Hshift|].
      intros (i & c0 & H1 & H2 & H3). destruct i as [|i].
      * simpl in H1. injection H1 as <-. congruence.
      * exists i, c0. repeat split; auto.
        replace (S x + i)%nat with (x + S i)%nat by lia. exact H3.
Qed.

Lemma collideRows_total (b : Board) (px0 py0 : Z) (rows : Matrix) :
  length b = Z.to_nat ROWS ->
  forall y, exists r, collideRows b px0 py0 rows y = Ok r.
Proof.
  intros Hlen. induction rows as [|cells rest IH]; intros y; simpl.
  - eauto.
  - destruct (collideCells_total b px0 py0 y cells Hlen 0) as [r ->].
    simpl. destruct r; [eauto|apply IH].
Qed.

Lemma collideRows_true (b : Board) (px0 py0 : Z) (rows : Matrix) :
  length b = Z.to_nat ROWS ->
  forall y,
    collideRows b px0 py0 rows y = Ok true <->
    exists j i, occupiedCell rows j i /\ blocked b px0 py0 (y + j) i.
Proof.
  intros Hlen. induction rows as [|cells rest IH]; intros y; simpl.
  - split; [discriminate|].
    intros (j & i & (row & c & H & _) & _). discriminate.
  - pose proof (collideCells_true b px0 py0 y cells Hlen 0) as Hcells.
    destruct (collideCells_total b px0 py0 y cells Hlen 0) as [r Hr].
    rewrite Hr. simpl. destruct r.
    + split; [|reflexivity]. intros _.
      apply Hcells in Hr as (i & c & H1 & H2 & H3).
      exists 0%nat, i. split.
      * exists cells, c. auto.
      * rewrite Nat.add_0_r. exact H3.
    + rewrite IH. split.
      * intros (j & i & (row & c & H1 & H2) & H3).
        exists (S j), i. split; [exists row, c; auto|].
        replace (y + S j)%nat with (S y + j)%nat by lia. exact H3.
      * intros (j & i & (row & c & H1 & H2 & H3) & H4). destruct j as [|j].
        -- simpl in H1. injection H1 as <-. rewrite Nat.add_0_r in H4.
           assert (collideCells b px0 py0 y cells 0 = Ok true) as Ht.
           { apply Hcells. exists i, c. auto. }
           congruence.
        -- exists j, i. split; [exists row, c; auto|].
           replace (S y + j)%nat with (y + S j)%nat by lia. exact H4.
Qed.

Lemma collide_total (b : Board) (p : Piece) :
  length b = Z.to_nat ROWS -> exists r, collide b p = Ok r.
Proof. intros Hlen. apply collideRows_total, Hlen. Qed.

Lemma collide_true (b : Board) (p : Piece) :
  length b = Z.to_nat ROWS ->
  collide b p = Ok true <->
  exists y x, occupiedCell (matrix p) y x /\ blocked b (px p) (py p) y x.
Proof.
  intros Hlen. unfold collide. rewrite collideRows_true by exact Hlen.
  reflexivity.
Qed.

Lemma collide_false (b : Board) (p : Piece) :
  length b = Z.to_nat ROWS ->
  collide b p = Ok false <->
  ~ exists y x, occupiedCell (matrix p) y x /\ blocked b (px p) (py p) y x.
Proof.
  intros Hlen. rewrite <- collide_true by exact Hlen.
  destruct (collide_total b p Hlen) as [[] ->]; split; congruence.
Qed.

(** C1. On a board of [ROWS] rows [collide] always returns a boolean; it
    returns true exactly when some occupied cell of the shape lands on a
    column outside [0, COLS), on a row [>= ROWS], or on a row [>= 0]
    whose board cell is occupied; a shape all of whose occupied cells
    land on rows [< 0] inside the columns does not collide. *)
Theorem collide_iff_blocked (b : Board) (p : Piece) :
  length b = Z.to_nat ROWS ->
  (collide b p = Ok true <->
   exists y x, occupiedCell (matrix p) y x /\ blocked b (px p) (py p) y x) /\
  (collide b p = Ok false <->
   ~ exists y x, occupiedCell (matrix p) y x /\ blocked b (px p) (py p) y x) /\
  ((forall y x, occupiedCell (matrix p) y x ->
      0 <= px p + Z.of_nat x < COLS /\ py p + Z.of_nat y < 0) ->
   collide b p = Ok false).
Proof.
  intros Hlen. split; [apply collide_true, Hlen|].
  split; [apply collide_false, Hlen|].
  intros Habove. apply collide_false; [exact Hlen|].
  intros (y & x & Hocc & Hblk). destruct (Habove y x Hocc) as [Hx Hy].
  unfold blocked, ROWS in Hblk. lia.
Qed.

(** ** Properties of [rotateClockwise] *)

Lemma lookup_tabulate (N : nat) (f : nat -> nat -> Z) (i : nat) :
  (i < N)%nat -> tabulate N f !! i = Some ((fun j => f i j) <$> seq 0 N).
Proof.
  intros Hi. unfold tabulate. rewrite list_lookup_fmap.
  rewrite lookup_seq_lt by exact Hi. reflexivity.
Qed.

Lemma length_tabulate (N : nat) (f : nat -> nat -> Z) :
  length (tabulate N f) = N.
Proof. unfold tabulate. rewrite length_fmap. apply length_seq. Qed.

Lemma matrixAt_tabulate (N : nat) (f : nat -> nat -> Z) (i j : nat) :
  (i < N)%nat -> (j < N)%nat -> matrixAt (tabulate N f) i j = f i j.
Proof.
  intros Hi Hj. unfold matrixAt. rewrite lookup_tabulate by exact Hi.
  rewrite list_lookup_fmap, lookup_seq_lt by exact Hj. reflexivity.
Qed.

Lemma tabulate_ext (N : nat) (f g : nat -> nat -> Z) :
  (forall i j, (i < N)%nat -> (j < N)%nat -> f i j = g i j) ->
  tabulate N f = tabulate N g.
Proof.
  intros Hfg. unfold tabulate. apply list_eq. intros i.
  rewrite !list_lookup_fmap.
  destruct (seq 0 N !! i) as [i'|] eqn:Ei; [|reflexivity]. simpl.
  apply lookup_seq in Ei as [-> Hi]. f_equal.
  apply list_eq. intros j. rewrite !list_lookup_fmap.
  destruct (seq 0 N !! j) as [j'|] eqn:Ej; [|reflexivity]. simpl.
  apply lookup_seq in Ej as [-> Hj]. f_equal. apply Hfg; lia.
Qed.

Lemma square_tabulate (N : nat) (m : Matrix) :
  square N m -> m = tabulate N (matrixAt m).
Proof.
  intros [Hlen Hrows]. apply list_eq. intros i.
  destruct (decide (i < N)%nat) as [Hi|Hi].
  - rewrite lookup_tabulate by exact Hi.
    destruct (m !! i) as [row|] eqn:Erow.
    + f_equal. apply list_eq. intros j.
      rewrite list_lookup_fmap.
      assert (length row = N) as Hrow.
      { rewrite Forall_forall in Hrows. apply Hrows.
        apply list_elem_of_lookup. eauto. }
      destruct (decide (j < N)%nat) as [Hj|Hj].
      * rewrite lookup_seq_lt by exact Hj. simpl.
        unfold matrixAt. rewrite Erow.
        destruct (row !! j) as [c|] eqn:Ec; [reflexivity|].
        apply lookup_ge_None in Ec. lia.
      * rewrite lookup_seq_ge by lia. simpl.
        apply lookup_ge_None. lia.
    + apply lookup_ge_None in Erow. lia.
  - rewrite (proj2 (lookup_ge_None m i)) by lia.
    symmetry. apply lookup_ge_None. rewrite length_tabulate. lia.
Qed.

Lemma matrixSet_tabulate (N : nat) (f : nat -> nat -> Z) (i j : nat) (v : Z) :
  (i < N)%nat -> (j < N)%nat ->
  matrixSet (tabulate N f) i j v =
  tabulate N (fun i' j' => if decide (i' = i /\ j' = j) then v else f i' j').
Proof.
  intros Hi Hj. rewrite (square_tabulate N (matrixSet (tabulate N f) i j v)).
  - apply tabulate_ext. intros i' j' Hi' Hj'.
    unfold matrixAt, matrixSet.
    destruct (decide (i = i')) as [<-|Hne].
    + rewrite list_lookup_alter_eq, lookup_tabulate by exact Hi. simpl.
      destruct (decide (j = j')) as [<-|Hnej].
      * rewrite list_lookup_insert_eq
          by (rewrite length_fmap, length_seq; exact Hj).
        simpl. rewrite decide_True by auto. reflexivity.
      * rewrite list_lookup_insert_ne by exact Hnej.
        rewrite list_lookup_fmap, lookup_seq_lt by exact Hj'. simpl.
        rewrite decide_False by (intros [_ ->]; congruence). reflexivity.
    + rewrite list_lookup_alter_ne, lookup_tabulate by assumption.
      rewrite list_lookup_fmap, lookup_seq_lt by exact Hj'. simpl.
      rewrite decide_False by (intros [-> _]; congruence). reflexivity.
  - split.
    + unfold matrixSet. rewrite length_alter. apply length_tabulate.
    + unfold matrixSet. rewrite Forall_forall. intros row Hrow.
      apply list_elem_of_lookup in Hrow as [i' Hrow].
      assert (i' < N)%nat as Hi'.
      { apply lookup_lt_Some in Hrow.
        rewrite length_alter, length_tabulate in Hrow. exact Hrow. }
      destruct (decide (i = i')) as [<-|Hne].
      * rewrite list_lookup_alter_eq, lookup_tabulate in Hrow by exact Hi.
        simpl in Hrow. injection Hrow as <-.
        rewrite length_insert, length_fmap, length_seq. reflexivity.
      * rewrite list_lookup_alter_ne, lookup_tabulate in Hrow by assumption.
        injection Hrow as <-. rewrite length_fmap, length_seq. reflexivity.
Qed.

Lemma makeMatrix_tabulate (N : nat) :
  makeMatrix N N 0 = tabulate N (fun _ _ => 0).
Proof.
  rewrite (square_tabulate N (makeMatrix N N 0)).
  - apply tabulate_ext. intros i j Hi Hj. unfold matrixAt, makeMatrix.
    rewrite lookup_replicate_2 by exact Hi.
    rewrite lookup_replicate_2 by exact Hj. reflexivity.
  - split; unfold makeMatrix.
    + apply length_replicate.
    + apply Forall_replicate. apply length_replicate.
Qed.

Ltac cell_cases :=
  cbv beta; repeat case_decide;
  first [reflexivity | exfalso; lia | f_equal; lia].

Lemma rotate_inner (N : nat) (g : nat -> Z) (c : nat) (f : nat -> nat -> Z)
    (l : nat) :
  (c < N)%nat -> (l <= N)%nat ->
  foldl (fun res x => matrixSet res x c (g x)) (tabulate N f) (seq 0 l) =
  tabulate N (fun i j => if decide (j = c /\ (i < l)%nat) then g i else f i j).
Proof.
  intros Hc. induction l as [|l IH]; intros Hl.
  - simpl. apply tabulate_ext. intros i j _ _. cell_cases.
  - rewrite seq_S, foldl_app, IH by lia. simpl.
    rewrite matrixSet_tabulate by lia.
    apply tabulate_ext. intros i j Hi Hj. cbv beta.
    repeat case_decide; try reflexivity; try (exfalso; lia).
    f_equal. lia.
Qed.

Lemma rotate_outer (m : Matrix) (N k : nat) :
  (k <= N)%nat ->
  foldl (fun res y =>
           foldl (fun res x => matrixSet res x (N - 1 - y)%nat (matrixAt m y x))
                 res (seq 0 N))
        (tabulate N (fun _ _ => 0)) (seq 0 k) =
  tabulate N (fun i j =>
                if decide (N - 1 - j < k)%nat then matrixAt m (N - 1 - j) i
                else 0).
Proof.
  induction k as [|k IH]; intros Hk.
  - simpl. apply tabulate_ext. intros i j _ _. cell_cases.
  - rewrite seq_S, foldl_app, IH by lia. simpl.
    rewrite rotate_inner by lia.
    apply tabulate_ext. intros i j Hi Hj. cbv beta.
    repeat case_decide; try reflexivity; try (exfalso; lia).
    f_equal. lia.
Qed.

(** [rotateClockwise] in closed form: cell [(i, j)] of the result is cell
    [(N-1-j, i)] of the argument. *)
Lemma rotateClockwise_tabulate (m : Matrix) :
  rotateClockwise m =
  tabulate (length m) (fun i j => matrixAt m (length m - 1 - j) i).
Proof.
  unfold rotateClockwise. rewrite makeMatrix_tabulate.
  rewrite rotate_outer by lia.
  apply tabulate_ext. intros i j Hi Hj. cell_cases.
Qed.

Lemma square_tabulate_intro (N : nat) (f : nat -> nat -> Z) :
  square N (tabulate N f).
Proof.
  split; [apply length_tabulate|].
  rewrite Forall_forall. intros row Hrow.
  apply list_elem_of_lookup in Hrow as [i Hrow].
  assert (i < N)%nat as Hi.
  { apply lookup_lt_Some in Hrow. rewrite length_tabulate in Hrow. exact Hrow. }
  rewrite lookup_tabulate in Hrow by exact Hi. injection Hrow as <-.
  rewrite length_fmap, length_seq. reflexivity.
Qed.

Lemma rotateClockwise_square (m : Matrix) :
  square (length m) (rotateClockwise m).
Proof. rewrite rotateClockwise_tabulate. apply square_tabulate_intro. Qed.

Lemma rotateClockwise_cell (m : Matrix) (row col : nat) :
  (row < length m)%nat -> (col < length m)%nat ->
  matrixAt (rotateClockwise m) col (length m - 1 - row) = matrixAt m row col.
Proof.
  intros Hr Hc. rewrite rotateClockwise_tabulate.
  rewrite matrixAt_tabulate by lia. f_equal. lia.
Qed.

Lemma rotateClockwise_of_tabulate (N : nat) (f : nat -> nat -> Z) :
  rotateClockwise (tabulate N f) =
  tabulate N (fun i j => f (N - 1 - j)%nat i).
Proof.
  rewrite rotateClockwise_tabulate, length_tabulate.
  apply tabulate_ext. intros i j Hi Hj.
  apply matrixAt_tabulate; lia.
Qed.

(** Four quarter turns of a square matrix give the matrix back. *)
Lemma rotateClockwise_four (N : nat) (m : Matrix) :
  square N m ->
  rotateClockwise (rotateClockwise (rotateClockwise (rotateClockwise m))) = m.
Proof.
  intros Hsq. rewrite (square_tabulate N m Hsq).
  generalize (matrixAt m). intros f.
  rewrite !rotateClockwise_of_tabulate.
  apply tabulate_ext. intros i j Hi Hj. f_equal; lia.
Qed.

(** ** Properties of [tryRotate] *)

Lemma tryKicks_first (b : Board) (ox : Z) (pre : list Z) (dx : Z)
    (post : list Z) :
  forall piece,
    (forall d, d ∈ pre -> collide b (set_px piece (ox + d)) = Ok true) ->
    collide b (set_px piece (ox + dx)) = Ok false ->
    tryKicks b piece ox (pre ++ dx :: post) = Ok (Some (set_px piece (ox + dx))).
Proof.
  induction pre as [|d pre IH]; intros piece Hpre Hdx; simpl.
  - rewrite Hdx. reflexivity.
  - rewrite (Hpre d) by (apply elem_of_cons; auto). simpl.
    apply (IH (set_px piece (ox + d))).
    + intros d' Hd'. apply (Hpre d'). apply elem_of_cons; auto.
    + exact Hdx.
Qed.

Lemma tryKicks_none (b : Board) (ox : Z) (kicks : list Z) :
  forall piece,
    (forall d, d ∈ kicks -> collide b (set_px piece (ox + d)) = Ok true) ->
    tryKicks b piece ox kicks = Ok None.
Proof.
  induction kicks as [|d kicks IH]; intros piece Hall; simpl.
  - reflexivity.
  - rewrite (Hall d) by (apply elem_of_cons; auto). simpl.
    apply (IH (set_px piece (ox + d))).
    intros d' Hd'. apply (Hall d'). apply elem_of_cons; auto.
Qed.

Lemma tryKicks_total (b : Board) (ox : Z) (kicks : list Z) :
  length b = Z.to_nat ROWS ->
  forall piece, exists r, tryKicks b piece ox kicks = Ok r.
Proof.
  intros Hlen. induction kicks as [|d kicks IH]; intros piece; simpl.
  - eauto.
  - destruct (collide_total b (set_px piece (ox + d)) Hlen) as [[] ->]; simpl.
    + apply IH.
    + eauto.
Qed.

Lemma tryKicks_matrix (b : Board) (ox : Z) (kicks : list Z) :
  forall piece p',
    tryKicks b piece ox kicks = Ok (Some p') ->
    matrix p' = matrix piece /\ py p' = py piece.
Proof.
  induction kicks as [|d kicks IH]; intros piece p' H; simpl in H.
  - discriminate.
  - destruct (collide b (set_px piece (ox + d))) as [[]| |]; simpl in H;
      try discriminate.
    + apply IH in H. exact H.
    + injection H as <-. auto.
Qed.

Lemma tryRotate_true_matrix (b : Board) (p p' : Piece) :
  tryRotate b p = Ok (p', true) ->
  matrix p' = rotateClockwise (matrix p).
Proof.
  unfold tryRotate. intros H.
  destruct (tryKicks b _ _ _) as [[q|]| |] eqn:E; simpl in H;
    try discriminate.
  injection H as <-. apply tryKicks_matrix in E. apply E.
Qed.

(** C2. [tryRotate] turns the shape a quarter clockwise
    ([result[col][N-1-row] = shape[row][col]]) and tests it at the
    column offsets 0, -1, +1, -2, +2 in this order: the first offset
    that does not collide is committed (rotated shape, shifted column,
    same row) and the call returns true; when all five collide the piece
    is as before the call and the call returns false. *)
Theorem tryRotate_kicks (b : Board) (p : Piece) (N : nat) :
  length b = Z.to_nat ROWS ->
  square N (matrix p) ->
  (square N (rotateClockwise (matrix p)) /\
   forall row col, (row < N)%nat -> (col < N)%nat ->
     matrixAt (rotateClockwise (matrix p)) col (N - 1 - row) =
     matrixAt (matrix p) row col) /\
  (forall pre dx post,
     [0; -1; 1; -2; 2] = pre ++ dx :: post ->
     (forall d, d ∈ pre -> collide b (candidate p d) = Ok true) ->
     collide b (candidate p dx) = Ok false ->
     tryRotate b p = Ok (candidate p dx, true)) /\
  ((forall d, d ∈ [0; -1; 1; -2; 2] -> collide b (candidate p d) = Ok true) ->
   tryRotate b p = Ok (p, false)) /\
  (exists p' r, tryRotate b p = Ok (p', r)).
Proof.
  intros Hlen [HN Hrows]. split; [|split; [|split]].
  - split.
    + rewrite <- HN. apply rotateClockwise_square.
    + intros row col Hr Hc. rewrite <- HN.
      apply rotateClockwise_cell; lia.
  - intros pre dx post Hk Hpre Hdx. unfold tryRotate. cbn [px set_matrix].
    rewrite Hk.
    rewrite (tryKicks_first b (px p) pre dx post
               (set_matrix p (rotateClockwise (matrix p)))).
    + reflexivity.
    + exact Hpre.
    + exact Hdx.
  - intros Hall. unfold tryRotate. cbn [px set_matrix].
    rewrite (tryKicks_none b (px p) [0; -1; 1; -2; 2]
               (set_matrix p (rotateClockwise (matrix p)))).
    + destruct p. reflexivity.
    + exact Hall.
  - unfold tryRotate.
    destruct (tryKicks_total b (px (set_matrix p (rotateClockwise (matrix p))))
                [0; -1; 1; -2; 2] Hlen
                (set_matrix p (rotateClockwise (matrix p)))) as [r ->].
    simpl. destruct r; eauto.
Qed.

(** C7. Four applications of [rotateClockwise] to a 4x4 matrix give back
    the matrix, so a piece with that shape on which [tryRotate] succeeds
    four times in a row has its original shape again. *)
Theorem rotate_four_times_identity (m : Matrix) (b : Board)
    (p0 p1 p2 p3 p4 : Piece) :
  square 4 m ->
  rotateClockwise (rotateClockwise (rotateClockwise (rotateClockwise m))) = m /\
  (matrix p0 = m ->
   tryRotate b p0 = Ok (p1, true) ->
   tryRotate b p1 = Ok (p2, true) ->
   tryRotate b p2 = Ok (p3, true) ->
   tryRotate b p3 = Ok (p4, true) ->
   matrix p4 = m).
Proof.
  intros Hsq. pose proof (rotateClockwise_four 4 m Hsq) as H4.
  split; [exact H4|].
  intros H0 H1 H2 H3 H5.
  apply tryRotate_true_matrix in H1, H2, H3, H5.
  rewrite H5, H3, H2, H1, H0. exact H4.
Qed.

(** ** Properties of [clearLines] *)

Lemma fullRowb_spec (row : list Cell) : fullRowb row = true <-> fullRow row.
Proof.
  unfold fullRowb, fullRow. rewrite forallb_forall. split.
  - intros H x Hx. specialize (H x). unfold truthyAt in H.
    destruct (row !! x) as [v|].
    + exists v. split; [reflexivity|]. apply H. apply in_seq. lia.
    + discriminate H. apply in_seq. lia.
  - intros H x Hx. apply in_seq in Hx. destruct (H x) as (v & Hv & Ht); [lia|].
    unfold truthyAt. rewrite Hv. exact Ht.
Qed.

Lemma fullRowb_emptyRow : fullRowb emptyRow = false.
Proof. reflexivity. Qed.

Lemma survivors_app (b1 b2 : Board) :
  survivors (b1 ++ b2) = survivors b1 ++ survivors b2.
Proof. apply filter_app. Qed.

Lemma fullCount_app (b1 b2 : Board) :
  fullCount (b1 ++ b2) = (fullCount b1 + fullCount b2)%nat.
Proof. unfold fullCount. rewrite filter_app, length_app. reflexivity. Qed.

Lemma fullCount_le (b : Board) : (fullCount b <= length b)%nat.
Proof. apply length_filter. Qed.

(** Once the scan is inside the fresh rows at the top, it only walks up. *)
Lemma clearLoop_top (c : nat) (D : Board) (j : nat) :
  forall fuel,
    (j <= c)%nat -> (j <= fuel)%nat ->
    clearLoop fuel (replicate c emptyRow ++ D) (Z.of_nat j - 1) (Z.of_nat c) =
    Ok (replicate c emptyRow ++ D, Z.of_nat c).
Proof.
  induction j as [|j IH]; intros fuel Hj Hfuel.
  - destruct fuel; reflexivity.
  - destruct fuel as [|fuel]; [lia|].
    cbn [clearLoop].
    rewrite (proj2 (Z.ltb_ge _ _)) by lia.
    unfold rowFull.
    replace (Z.to_nat (Z.of_nat (S j) - 1)) with j by lia.
    rewrite lookup_app_l by (rewrite length_replicate; lia).
    rewrite lookup_replicate_2 by lia.
    rewrite fullRowb_emptyRow. cbn [mbind result_bind].
    replace (Z.of_nat (S j) - 1 - 1) with (Z.of_nat j - 1) by lia.
    apply IH; lia.
Qed.

(** The scan from the bottom: [U] are the rows not yet examined, below
    them the rows [D] that were kept, above them the [c] fresh rows. *)
Lemma clearLoop_scan (U : Board) :
  forall (c : nat) (D : Board) (fuel : nat),
    (length U + c + fullCount U <= fuel)%nat ->
    clearLoop fuel (replicate c emptyRow ++ U ++ D)
      (Z.of_nat c + Z.of_nat (length U) - 1) (Z.of_nat c) =
    Ok (replicate (c + fullCount U) emptyRow ++ survivors U ++ D,
        Z.of_nat (c + fullCount U)).
Proof.
  induction U as [|r U IH] using rev_ind; intros c D fuel Hfuel.
  - cbn [length app survivors fullCount filter list_filter] in *.
    rewrite Nat.add_0_r.
    replace (Z.of_nat c + Z.of_nat 0 - 1) with (Z.of_nat c - 1) by lia.
    apply clearLoop_top; lia.
  - rewrite length_app in *. cbn [length] in *.
    rewrite fullCount_app in *. rewrite survivors_app.
    destruct fuel as [|fuel]; [lia|].
    cbn [clearLoop].
    rewrite (proj2 (Z.ltb_ge _ _)) by lia.
    unfold rowFull.
    replace (Z.to_nat (Z.of_nat c + Z.of_nat (length U + 1) - 1))
      with (length (replicate c emptyRow ++ U)) 
      by (rewrite length_app, length_replicate; lia).
    rewrite <- (app_assoc U [r] D). cbn [app].
    rewrite (app_assoc (replicate c emptyRow) U (r :: D)).
    rewrite list_lookup_middle by reflexivity.
    cbn [mbind result_bind].
    destruct (fullRowb r) eqn:Er.
    + rewrite delete_middle, <- app_assoc.
      change (emptyRow :: replicate c emptyRow ++ U ++ D)
        with (replicate (S c) emptyRow ++ U ++ D).
      replace (Z.of_nat c + Z.of_nat (length U + 1) - 1)
        with (Z.of_nat (S c) + Z.of_nat (length U) - 1) by lia.
      replace (Z.of_nat c + 1) with (Z.of_nat (S c)) by lia.
      assert (fullCount [r] = 1%nat) as Hr.
      { unfold fullCount. rewrite filter_cons_True by exact Er. reflexivity. }
      assert (survivors [r] = []) as Hs.
      { unfold survivors. rewrite filter_cons_False by congruence.
        reflexivity. }
      rewrite Hr, Hs in *. rewrite IH by lia. rewrite app_nil_r.
      replace (S c + fullCount U)%nat with (c + (fullCount U + 1))%nat by lia.
      reflexivity.
    + rewrite <- app_assoc.
      replace (Z.of_nat c + Z.of_nat (length U + 1) - 1 - 1)
        with (Z.of_nat c + Z.of_nat (length U) - 1) by lia.
      assert (fullCount [r] = 0%nat) as Hr.
      { unfold fullCount. rewrite filter_cons_False by congruence.
        reflexivity. }
      assert (survivors [r] = [r]) as Hs.
      { unfold survivors. rewrite filter_cons_True by exact Er. reflexivity. }
      rewrite Hr, Hs in *. rewrite IH by lia.
      rewrite Nat.add_0_r, <- app_assoc. reflexivity.
Qed.

Lemma survivors_fullCount_length (b : Board) :
  (fullCount b + length (survivors b))%nat = length b.
Proof.
  induction b as [|r b IH]; [reflexivity|].
  change (r :: b) with ([r] ++ b).
  rewrite fullCount_app, survivors_app, !length_app.
  unfold fullCount, survivors in *. cbn [length].
  destruct (fullRowb r) eqn:Er.
  - rewrite filter_cons_True by exact Er.
    rewrite filter_cons_False by congruence. cbn [filter list_filter length].
    lia.
  - rewrite filter_cons_False by congruence.
    rewrite filter_cons_True by exact Er. cbn [filter list_filter length].
    lia.
Qed.

Lemma survivors_none_full (b : Board) :
  Forall (fun row => ~ fullRow row) b ->
  survivors b = b /\ fullCount b = 0%nat.
Proof.
  induction 1 as [|r b Hr _ [IHs IHc]]; [split; reflexivity|].
  assert (fullRowb r = false) as Er.
  { destruct (fullRowb r) eqn:E; [|reflexivity].
    exfalso. apply Hr, fullRowb_spec, E. }
  unfold survivors, fullCount in *.
  rewrite filter_cons_True by exact Er.
  rewrite filter_cons_False by congruence.
  rewrite IHs. auto.
Qed.

Lemma survivors_full (r : list Cell) (b : Board) :
  fullRow r ->
  survivors (r :: b) = survivors b /\ fullCount (r :: b) = S (fullCount b).
Proof.
  intros Hr. apply fullRowb_spec in Hr. unfold survivors, fullCount.
  rewrite filter_cons_False by congruence.
  rewrite filter_cons_True by exact Hr. auto.
Qed.

Lemma clearLoop_result (fuel : nat) (b : Board) :
  length b = Z.to_nat ROWS ->
  (2 * Z.to_nat ROWS <= fuel)%nat ->
  clearLoop fuel b (ROWS - 1) 0 =
  Ok (replicate (fullCount b) emptyRow ++ survivors b, Z.of_nat (fullCount b)).
Proof.
  intros Hlen Hfuel.
  pose proof (clearLoop_scan b 0 [] fuel) as H.
  pose proof (fullCount_le b) as Hle.
  rewrite !app_nil_r in H. cbn [replicate app Nat.add] in H.
  rewrite Hlen in H.
  replace (Z.of_nat 0 + Z.of_nat (Z.to_nat ROWS) - 1) with (ROWS - 1) in H
    by (unfold ROWS; lia).
  apply H. lia.
Qed.

Lemma applyCleared_board (st : State) (n : Z) :
  board (applyCleared st n) = board st.
Proof.
  unfold applyCleared. destruct (n >? 0); [|reflexivity].
  destruct (negb _); reflexivity.
Qed.

Lemma applyCleared_lines (st : State) (n : Z) :
  0 <= n -> lines (applyCleared st n) = lines st + n.
Proof.
  intros Hn. unfold applyCleared. destruct (n >? 0) eqn:E.
  - destruct (negb _); reflexivity.
  - assert (n = 0) as -> by lia. lia.
Qed.

(** C3. On a board of [ROWS] rows the loop of [clearLines] returns the
    board made of one empty row per full row, on top, followed by the
    rows that are not full, in their order: the row count is kept and
    the counter is the number of full rows, which [clearLines] adds to
    [lines]. A board that starts full, full and continues with rows that
    are not full loses exactly these 2 rows, keeps the others as they
    were and has 2 empty rows on top; so does a board whose two full
    rows are apart. *)
Theorem clearLines_removes_full_rows (fuel : nat) (st : State) :
  length (board st) = Z.to_nat ROWS ->
  (2 * Z.to_nat ROWS <= fuel)%nat ->
  (forall row, fullRowb row = true <-> fullRow row) /\
  clearLoop fuel (board st) (ROWS - 1) 0 =
    Ok (replicate (fullCount (board st)) emptyRow ++ survivors (board st),
        Z.of_nat (fullCount (board st))) /\
  (exists st',
     clearLines fuel st = Ok st' /\
     board st' =
       replicate (fullCount (board st)) emptyRow ++ survivors (board st) /\
     length (board st') = length (board st) /\
     lines st' = lines st + Z.of_nat (fullCount (board st))) /\
  (forall f1 f2 rest,
     board st = f1 :: f2 :: rest ->
     fullRow f1 -> fullRow f2 -> Forall (fun row => ~ fullRow row) rest ->
     clearLoop fuel (board st) (ROWS - 1) 0 =
       Ok (emptyRow :: emptyRow :: rest, 2)) /\
  (forall pre f1 mid f2 post,
     board st = pre ++ f1 :: mid ++ f2 :: post ->
     fullRow f1 -> fullRow f2 ->
     Forall (fun row => ~ fullRow row) (pre ++ mid ++ post) ->
     clearLoop fuel (board st) (ROWS - 1) 0 =
       Ok (emptyRow :: emptyRow :: pre ++ mid ++ post, 2)).
Proof.
  intros Hlen Hfuel.
  pose proof (clearLoop_result fuel (board st) Hlen Hfuel) as Hloop.
  split; [apply fullRowb_spec|]. split; [exact Hloop|]. split; [|split].
  - unfold clearLines. cbn [board set_board]. rewrite Hloop.
    cbn [mbind result_bind fst snd]. eexists. split; [reflexivity|].
    rewrite applyCleared_board, applyCleared_lines by lia.
    cbn [board set_board lines]. split; [reflexivity|]. split; [|reflexivity].
    rewrite length_app, length_replicate.
    apply survivors_fullCount_length.
  - intros f1 f2 rest Hb H1 H2 Hrest. rewrite Hloop, Hb.
    destruct (survivors_full f1 (f2 :: rest) H1) as [-> ->].
    destruct (survivors_full f2 rest H2) as [-> ->].
    destruct (survivors_none_full rest Hrest) as [-> ->]. reflexivity.
  - intros pre f1 mid f2 post Hb H1 H2 Hrest. rewrite Hloop, Hb.
    apply Forall_app in Hrest as [Hpre Hrest].
    apply Forall_app in Hrest as [Hmid Hpost].
    change (f1 :: mid ++ f2 :: post) with ([f1] ++ mid ++ [f2] ++ post).
    rewrite !survivors_app, !fullCount_app.
    destruct (survivors_none_full pre Hpre) as [-> ->].
    destruct (survivors_none_full mid Hmid) as [-> ->].
    destruct (survivors_none_full post Hpost) as [-> ->].
    destruct (survivors_full f1 [] H1) as [-> ->].
    destruct (survivors_full f2 [] H2) as [-> ->].
    reflexivity.
Qed.

(** ** Properties of [merge] *)

Lemma boardSet_wf (b : Board) (r c : nat) (v : Cell) :
  wfBoard b -> (r < Z.to_nat ROWS)%nat ->
  exists b', boardSet b r c v = Ok b' /\ wfBoard b'.
Proof.
  intros [Hlen Hrows] Hr. unfold boardSet.
  destruct (b !! r) as [row|] eqn:E.
  - eexists. split; [reflexivity|]. split.
    + rewrite length_insert. exact Hlen.
    + apply Forall_insert; [exact Hrows|].
      rewrite length_insert. rewrite Forall_forall in Hrows.
      apply Hrows. apply list_elem_of_lookup. eauto.
  - apply lookup_ge_None in E. lia.
Qed.

Lemma mergeCells_wf (px0 py0 : Z) (col : string) (y : nat) (cells : list Z) :
  forall (b : Board) (x : nat),
    wfBoard b ->
    exists b', mergeCells b px0 py0 col y cells x = Ok b' /\ wfBoard b'.
Proof.
  induction cells as [|c rest IH]; intros b x Hwf; simpl.
  - eauto.
  - destruct (negb (truthyNum c)); [apply IH, Hwf|].
    destruct (_ && _) eqn:Ein; [|apply IH, Hwf].
    destruct (boardSet_wf b (Z.to_nat (py0 + Z.of_nat y))
                (Z.to_nat (px0 + Z.of_nat x)) (Some col) Hwf)
      as (b' & -> & Hwf'); [unfold ROWS in *; lia|].
    simpl. apply IH, Hwf'.
Qed.

Lemma mergeRows_wf (px0 py0 : Z) (col : string) (rows : Matrix) :
  forall (b : Board) (y : nat),
    wfBoard b ->
    exists b', mergeRows b px0 py0 col rows y = Ok b' /\ wfBoard b'.
Proof.
  induction rows as [|cells rest IH]; intros b y Hwf; simpl.
  - eauto.
  - destruct (mergeCells_wf px0 py0 col y cells b 0 Hwf) as (b' & -> & Hwf').
    simpl. apply IH, Hwf'.
Qed.

Lemma merge_wf (b : Board) (p : Piece) :
  wfBoard b -> exists b', merge b p = Ok b' /\ wfBoard b'.
Proof. intros Hwf. apply mergeRows_wf, Hwf. Qed.

(** ** Properties of the bag *)

Lemma swap_Permutation {A : Type} (arr : list A) (i j : nat) :
  swap arr i j ≡ₚ arr.
Proof.
  unfold swap.
  destruct (arr !! i) as [ai|] eqn:Ei; [|reflexivity].
  destruct (arr !! j) as [aj|] eqn:Ej; [|reflexivity].
  apply Permutation_insert_swap; assumption.
Qed.

Lemma shuffleLoop_Permutation {A : Type} (i : nat) :
  forall (arr : list A) (tape : nat -> nat) (pos : nat),
    fst (shuffleLoop i arr tape pos) ≡ₚ arr /\
    snd (shuffleLoop i arr tape pos) = (pos + i)%nat.
Proof.
  induction i as [|i IH]; intros arr tape pos.
  - simpl. split; [reflexivity|lia].
  - cbn [shuffleLoop].
    destruct (IH (swap arr (S i) (tape pos mod (S i + 1))) tape (S pos))
      as [Hp Hn].
    split.
    + rewrite Hp. apply swap_Permutation.
    + rewrite Hn. lia.
Qed.

Lemma shuffleInPlace_Permutation {A : Type} (arr : list A)
    (tape : nat -> nat) (pos : nat) :
  fst (shuffleInPlace arr tape pos) ≡ₚ arr.
Proof. apply shuffleLoop_Permutation. Qed.

Lemma refillBag_nonempty (st : State) : bag (refillBag st) <> [].
Proof.
  unfold refillBag. destruct (bag st) as [|k ks] eqn:E.
  - pose proof (shuffleInPlace_Permutation TYPES (randomTape st)
                  (randomCalls st)) as Hp.
    destruct (shuffleInPlace _ _ _) as [arr pos]. simpl in *.
    intros ->. apply Permutation_nil_l in Hp. discriminate.
  - rewrite E. discriminate.
Qed.

Lemma takeFromBag_Some (st : State) :
  exists k, fst (takeFromBag st) = Some k.
Proof.
  unfold takeFromBag, popBag. cbn [fst].
  pose proof (refillBag_nonempty st) as Hne.
  apply last_is_Some in Hne as [k Hk]. eauto.
Qed.

Lemma takeFromBag_frame (st : State) :
  exists bag' calls',
    snd (takeFromBag st) = set_randomCalls (set_bag st bag') calls'.
Proof.
  unfold takeFromBag, popBag, refillBag. cbn [snd].
  destruct (bag st) as [|k ks] eqn:E.
  - destruct (shuffleInPlace _ _ _) as [arr pos].
    exists (removelast arr), pos. reflexivity.
  - exists (removelast (k :: ks)), (randomCalls st). rewrite <- E.
    reflexivity.
Qed.

(** ** Properties of [lockPiece] *)

Lemma lockPiece_spec (fuel : nat) (st : State) (cur nxt : Piece) :
  wfBoard (board st) ->
  current st = Some cur -> next st = Some nxt ->
  (2 * Z.to_nat ROWS <= fuel)%nat ->
  exists b1 np bag' calls' over,
    merge (board st) cur = Ok b1 /\ wfBoard b1 /\
    lockPiece fuel st = Ok (lockedState st b1 np bag' calls' over).
Proof.
  intros Hwf Hcur Hnxt Hfuel. unfold lockPiece, getCurrent.
  rewrite Hcur. cbn [mbind result_bind].
  destruct (merge_wf (board st) cur Hwf) as (b1 & Hmerge & Hwf1).
  rewrite Hmerge. cbn [mbind result_bind].
  unfold clearLines. cbn [board set_board].
  rewrite clearLoop_result by (apply Hwf1 || exact Hfuel).
  cbn [mbind result_bind fst snd].
  set (st1 := applyCleared _ _).
  assert (next st1 = Some nxt) as Hn1.
  { subst st1. unfold applyCleared. destruct (_ >? 0); [|exact Hnxt].
    destruct (negb _); exact Hnxt. }
  destruct (takeFromBag_Some (set_current st1 (next st1))) as [k Hk].
  destruct (takeFromBag_frame (set_current st1 (next st1)))
    as (bag' & calls' & Hframe).
  destruct (takeFromBag (set_current st1 (next st1))) as [ko st2].
  cbn [fst snd] in Hk, Hframe. subst ko st2.
  cbn [createPiece mbind result_bind].
  set (np := mkPiece k _ _ _ _).
  cbn [current set_next set_randomCalls set_bag set_current].
  rewrite Hn1. cbn [mbind result_bind board].
  assert (length (board st1) = Z.to_nat ROWS) as Hlen1.
  { subst st1. rewrite applyCleared_board. cbn [board set_board].
    rewrite length_app, length_replicate, survivors_fullCount_length.
    apply Hwf1. }
  destruct (collide_total (board st1) nxt Hlen1) as [over Hover].
  change (board (set_next _ _)) with (board st1).
  rewrite Hover. cbn [mbind result_bind].
  exists b1, np, bag', calls', over.
  split; [reflexivity|]. split; [exact Hwf1|].
  unfold lockedState.
  change (applyCleared (set_board st _) _) with st1. rewrite Hn1.
  destruct over; reflexivity.
Qed.

Lemma applyCleared_zero (st : State) : applyCleared st 0 = st.
Proof. reflexivity. Qed.

Lemma applyCleared_pos (st : State) (n : Z) :
  0 < n ->
  score (applyCleared st n) = score st + lineScore n * level st /\
  lines (applyCleared st n) = lines st + n /\
  level (applyCleared st n) = (lines st + n) / 10 + 1 /\
  dropInterval (applyCleared st n) =
    Z.max 90 (900 - ((lines st + n) / 10 + 1 - 1) * 70).
Proof.
  intros Hn. unfold applyCleared, lineScore.
  rewrite (proj2 (Z.gtb_lt n 0)) by lia.
  cbn [lines set_lines level set_score score].
  destruct (negb _) eqn:E.
  - cbn. auto.
  - apply negb_false_iff, Z.eqb_eq in E. cbn in *. rewrite <- E. auto.
Qed.

Lemma lockedState_scoring (st : State) (b1 : Board) (np : Piece)
    (bag' : list Kind) (calls' : nat) (over : bool) :
  let st1 := applyCleared st (Z.of_nat (fullCount b1)) in
  let st' := lockedState st b1 np bag' calls' over in
  score st' = score st1 /\ lines st' = lines st1 /\ level st' = level st1 /\
  dropInterval st' = dropInterval st1 /\
  board st' = replicate (fullCount b1) emptyRow ++ survivors b1 /\
  current st' = next st.
Proof.
  cbn zeta. unfold lockedState, applyCleared.
  destruct (_ >? 0).
  - cbn [lines set_lines level set_score score set_board].
    destruct (negb _); unfold updateHUD, setGameOver, updateHUD;
      destruct over; cbn;
      repeat match goal with
        | |- context [if ?c then _ else _] => destruct c
        end; cbn; auto 10.
  - unfold updateHUD, setGameOver, updateHUD; destruct over; cbn;
      repeat match goal with
        | |- context [if ?c then _ else _] => destruct c
        end; cbn; auto 10.
Qed.

(** C4. A lock that clears [n > 0] rows adds [LINE_SCORES[n]] (0 when
    [n > 4]) times the level before the clear to the score, sets the
    level to [floor(lines / 10) + 1] for the new total of lines and the
    drop interval to [max(90, 900 - (level - 1) * 70)] for the new
    level; a lock that clears no row leaves score, level and drop
    interval as they were. *)
Theorem lock_scoring (fuel : nat) (st : State) (cur nxt : Piece) :
  wfBoard (board st) ->
  current st = Some cur -> next st = Some nxt ->
  (2 * Z.to_nat ROWS <= fuel)%nat ->
  exists b1 st',
    merge (board st) cur = Ok b1 /\
    lockPiece fuel st = Ok st' /\
    let n := Z.of_nat (fullCount b1) in
    lines st' = lines st + n /\
    (0 < n ->
     score st' = score st + lineScore n * level st /\
     level st' = lines st' / 10 + 1 /\
     dropInterval st' = Z.max 90 (900 - (level st' - 1) * 70)) /\
    (n = 0 ->
     score st' = score st /\ level st' = level st /\
     dropInterval st' = dropInterval st) /\
    lineScore 1 = 40 /\ lineScore 2 = 100 /\ lineScore 3 = 300 /\
    lineScore 4 = 1200 /\ (forall m, 4 < m -> lineScore m = 0).
Proof.
  intros Hwf Hcur Hnxt Hfuel.
  destruct (lockPiece_spec fuel st cur nxt Hwf Hcur Hnxt Hfuel)
    as (b1 & np & bag' & calls' & over & Hmerge & Hwf1 & Hlock).
  exists b1, (lockedState st b1 np bag' calls' over).
  split; [exact Hmerge|]. split; [exact Hlock|]. cbn zeta.
  destruct (lockedState_scoring st b1 np bag' calls' over)
    as (Hs & Hl & Hv & Hd & _).
  rewrite Hs, Hl, Hv, Hd.
  split; [apply applyCleared_lines; lia|].
  split; [|split].
  - intros Hn. destruct (applyCleared_pos st _ Hn) as (-> & -> & -> & ->).
    auto.
  - intros ->. rewrite applyCleared_zero. auto.
  - repeat split; try reflexivity.
    intros m Hm. unfold lineScore, LINE_SCORES.
    destruct m as [|m|m]; try lia.
    do 3 (destruct m as [m|m|]; try lia; try reflexivity).
Qed.

(** ** The downward probing loops *)

Lemma set_py_same (p : Piece) : set_py p (py p + Z.of_nat 0) = p.
Proof. destruct p. unfold set_py. cbn. f_equal. lia. Qed.

Lemma set_py_step (p : Piece) (n : nat) :
  set_py (set_py p (py p + 1)) (py (set_py p (py p + 1)) + Z.of_nat n) =
  set_py p (py p + Z.of_nat (S n)).
Proof. unfold set_py. cbn. f_equal. lia. Qed.

(** A cell of the shape at or below row [ROWS] makes [collide] true. *)
Lemma collide_below (b : Board) (p : Piece) (r c : nat) :
  length b = Z.to_nat ROWS ->
  occupiedCell (matrix p) r c -> ROWS <= py p + Z.of_nat r ->
  collide b p = Ok true.
Proof.
  intros Hlen Hocc Hrow. apply collide_true; [exact Hlen|].
  exists r, c. split; [exact Hocc|]. unfold blocked. auto.
Qed.

(** [hardDropLoop] is [ghostLoop] with a step counter. *)
Lemma hardDropLoop_ghostLoop (fuel : nat) (b : Board) :
  forall (cur : Piece) (dist : Z),
    hardDropLoop fuel b cur dist =
    g ← ghostLoop fuel b cur; Ok (g, dist + (py g - py cur)).
Proof.
  induction fuel as [|fuel IH]; intros cur dist; [reflexivity|].
  cbn [hardDropLoop ghostLoop].
  destruct (collide b (set_py cur (py cur + 1))) as [[]| |];
    cbn [mbind result_bind]; try reflexivity.
  - do 2 f_equal. lia.
  - rewrite IH.
    destruct (ghostLoop fuel b (set_py cur (py cur + 1))) as [g| |];
      cbn [mbind result_bind]; try reflexivity.
    do 2 f_equal. cbn [py set_py]. lia.
Qed.

(** The loop stops at the first row whose successor collides. *)
Lemma ghostLoop_steps (b : Board) (n : nat) :
  forall (fuel : nat) (p : Piece),
    (forall i, (i < n)%nat ->
       collide b (set_py p (py p + Z.of_nat i + 1)) = Ok false) ->
    collide b (set_py p (py p + Z.of_nat n + 1)) = Ok true ->
    (n < fuel)%nat ->
    ghostLoop fuel b p = Ok (set_py p (py p + Z.of_nat n)).
Proof.
  induction n as [|n IH]; intros fuel p Hfree Hhit Hfuel;
    (destruct fuel as [|fuel]; [lia|]); cbn [ghostLoop].
  - replace (py p + Z.of_nat 0 + 1) with (py p + 1) in Hhit by lia.
    rewrite Hhit. cbn [mbind result_bind]. rewrite set_py_same. reflexivity.
  - pose proof (Hfree 0%nat ltac:(lia)) as H0.
    replace (py p + Z.of_nat 0 + 1) with (py p + 1) in H0 by lia.
    rewrite H0. cbn [mbind result_bind].
    rewrite (IH fuel (set_py p (py p + 1))).
    + rewrite set_py_step. reflexivity.
    + intros i Hi. specialize (Hfree (S i) ltac:(lia)).
      cbn [py set_py].
      replace (py p + 1 + Z.of_nat i + 1) with (py p + Z.of_nat (S i) + 1)
        by lia.
      exact Hfree.
    + cbn [py set_py].
      replace (py p + 1 + Z.of_nat n + 1) with (py p + Z.of_nat (S n) + 1)
        by lia.
      exact Hhit.
    + lia.
Qed.

(** With an occupied cell in the shape the loop stops within
    [ROWS - py] steps. *)
Lemma ghostLoop_terminates (b : Board) (r c : nat) (fuel : nat) :
  length b = Z.to_nat ROWS ->
  forall p : Piece,
    occupiedCell (matrix p) r c ->
    (Z.to_nat (ROWS - py p) < fuel)%nat ->
    exists n : nat,
      (n <= Z.to_nat (ROWS - py p))%nat /\
      ghostLoop fuel b p = Ok (set_py p (py p + Z.of_nat n)) /\
      collide b (set_py p (py p + Z.of_nat n + 1)) = Ok true /\
      (forall i, (i < n)%nat ->
         collide b (set_py p (py p + Z.of_nat i + 1)) = Ok false).
Proof.
  intros Hlen. induction fuel as [|fuel IH]; intros p Hocc Hfuel; [lia|].
  cbn [ghostLoop].
  destruct (collide_total b (set_py p (py p + 1)) Hlen) as [hit Hhit].
  rewrite Hhit. cbn [mbind result_bind]. destruct hit.
  - exists 0%nat. split; [lia|]. rewrite set_py_same.
    split; [reflexivity|]. split; [|intros i Hi; lia].
    replace (py p + Z.of_nat 0 + 1) with (py p + 1) by lia. exact Hhit.
  - assert (py p + 1 + Z.of_nat r < ROWS) as Hrow.
    { destruct (Z.lt_ge_cases (py p + 1 + Z.of_nat r) ROWS) as [H|H];
        [exact H|].
      rewrite (collide_below b (set_py p (py p + 1)) r c Hlen Hocc) in Hhit
        by (cbn [py set_py]; lia).
      discriminate. }
    destruct (IH (set_py p (py p + 1)) Hocc) as (n & Hn & Hloop & Hend & Hfree).
    { cbn [py set_py]. lia. }
    cbn [py set_py] in *.
    exists (S n). split; [lia|]. split; [|split].
    + rewrite Hloop. unfold set_py. cbn. do 2 f_equal. lia.
    + replace (py p + Z.of_nat (S n) + 1) with (py p + 1 + Z.of_nat n + 1)
        by lia.
      exact Hend.
    + intros [|i] Hi.
      * replace (py p + Z.of_nat 0 + 1) with (py p + 1) by lia. exact Hhit.
      * replace (py p + Z.of_nat (S i) + 1) with (py p + 1 + Z.of_nat i + 1)
          by lia.
        apply Hfree. lia.
Qed.

Lemma collideCells_emptyShape (b : Board) (px0 py0 : Z) (y : nat)
    (cells : list Z) :
  Forall (fun c => truthyNum c = false) cells ->
  forall x, collideCells b px0 py0 y cells x = Ok false.
Proof.
  induction 1 as [|c rest Hc _ IH]; intros x; simpl; [reflexivity|].
  rewrite Hc. simpl. apply IH.
Qed.

Lemma collide_emptyShape (b : Board) (p : Piece) :
  emptyShape (matrix p) -> collide b p = Ok false.
Proof.
  unfold collide, emptyShape. generalize 0%nat.
  induction (matrix p) as [|cells rest IH]; intros y Hm; simpl;
    [reflexivity|].
  apply Forall_cons in Hm as [Hc Hrest].
  rewrite collideCells_emptyShape by exact Hc. simpl. apply IH, Hrest.
Qed.

Lemma ghostLoop_emptyShape (b : Board) (fuel : nat) :
  forall p : Piece, emptyShape (matrix p) -> ghostLoop fuel b p = OutOfFuel.
Proof.
  induction fuel as [|fuel IH]; intros p Hp; [reflexivity|].
  cbn [ghostLoop]. rewrite collide_emptyShape by exact Hp.
  cbn [mbind result_bind]. apply IH. exact Hp.
Qed.

Lemma TETROMINO_nonempty (k : Kind) :
  exists y x, occupiedCell (TETROMINO_matrix k) y x.
Proof.
  destruct k;
    first [ by exists 0%nat, 0%nat, [1;1;0;0], 1
          | by exists 0%nat, 0%nat, [1;0;0;0], 1
          | by exists 0%nat, 1%nat, [0;1;1;0], 1
          | by exists 0%nat, 1%nat, [0;1;0;0], 1
          | by exists 0%nat, 2%nat, [0;0;1;0], 1
          | by exists 1%nat, 0%nat, [1;1;1;1], 1 ].
Qed.

(** C10. For a shape with an occupied cell, on a board of [ROWS] rows,
    the probing loops of [computeGhost] and [hardDrop] stop after at
    most [ROWS - py] advances of the row (none when that is negative),
    at the first row whose successor collides; they stop because a
    piece with an occupied cell at a row [>= ROWS] collides. For a shape
    without occupied cell no loop budget is enough; each of the 7 kinds
    has an occupied cell. *)
Theorem drop_loops_terminate (b : Board) (p : Piece) (r c : nat)
    (fuel : nat) (dist : Z) :
  length b = Z.to_nat ROWS ->
  occupiedCell (matrix p) r c ->
  (Z.to_nat (ROWS - py p) < fuel)%nat ->
  (exists n : nat,
     (n <= Z.to_nat (ROWS - py p))%nat /\
     computeGhost fuel b p = Ok (set_py p (py p + Z.of_nat n)) /\
     hardDropLoop fuel b p dist =
       Ok (set_py p (py p + Z.of_nat n), dist + Z.of_nat n) /\
     collide b (set_py p (py p + Z.of_nat n + 1)) = Ok true /\
     (forall i, (i < n)%nat ->
        collide b (set_py p (py p + Z.of_nat i + 1)) = Ok false)) /\
  (forall y', ROWS <= y' + Z.of_nat r -> collide b (set_py p y') = Ok true) /\
  (forall (q : Piece) (fuel' : nat),
     emptyShape (matrix q) ->
     computeGhost fuel' b q = OutOfFuel /\
     hardDropLoop fuel' b q dist = OutOfFuel) /\
  (forall k, exists y x, occupiedCell (TETROMINO_matrix k) y x).
Proof.
  intros Hlen Hocc Hfuel. split; [|split; [|split]].
  - destruct (ghostLoop_terminates b r c fuel Hlen p Hocc Hfuel)
      as (n & Hn & Hloop & Hend & Hfree).
    exists n. split; [exact Hn|]. split; [exact Hloop|].
    split; [|split; assumption].
    rewrite hardDropLoop_ghostLoop, Hloop. cbn [mbind result_bind py set_py].
    do 2 f_equal. lia.
  - intros y' Hy'. apply (collide_below b (set_py p y') r c Hlen Hocc).
    exact Hy'.
  - intros q fuel' Hq. unfold computeGhost.
    rewrite hardDropLoop_ghostLoop, ghostLoop_emptyShape by exact Hq.
    split; reflexivity.
  - apply TETROMINO_nonempty.
Qed.

(** ** Hard drop of the O piece on the empty board *)

Lemma hardDropLoop_spawnedO (fuel : nat) :
  (19 < fuel)%nat ->
  hardDropLoop fuel emptyBoard (spawned KO) 0 =
  Ok (set_py (spawned KO) 18, 19).
Proof.
  intros Hfuel. rewrite hardDropLoop_ghostLoop.
  rewrite (ghostLoop_steps emptyBoard 19 fuel (spawned KO)).
  - reflexivity.
  - intros i Hi.
    do 19 (destruct i as [|i]; [vm_compute; reflexivity|]). lia.
  - vm_compute. reflexivity.
  - exact Hfuel.
Qed.

Lemma wfBoard_emptyBoard : wfBoard emptyBoard.
Proof. split; [reflexivity|]. repeat constructor. Qed.

(** C6 (amended). On the empty board, a hard drop of the O piece from
    its spawn position (column 3, row -1) advances it 19 rows: its four
    cells are locked in columns 4 and 5 of the two bottom rows, the
    score grows by 2 * 19 = 38 and no line is cleared. *)
Theorem hardDrop_O_on_empty_board (fuel : nat) (st : State) (nxt : Piece) :
  board st = emptyBoard ->
  current st = Some (spawned KO) ->
  next st = Some nxt ->
  (2 * Z.to_nat ROWS <= fuel)%nat ->
  createPiece (Some KO) = Ok (spawned KO) /\
  px (spawned KO) = COLS / 2 - 2 /\ px (spawned KO) = 3 /\
  py (spawned KO) = -1 /\
  exists st',
    hardDrop fuel st = Ok st' /\
    board st' = boardWithO /\
    score st' = score st + 38 /\
    lines st' = lines st /\
    level st' = level st /\
    current st' = Some nxt.
Proof.
  intros Hb Hcur Hnxt Hfuel.
  do 4 (split; [reflexivity|]).
  unfold hardDrop, getCurrent. rewrite Hcur, Hb. cbn [mbind result_bind].
  rewrite hardDropLoop_spawnedO by (unfold ROWS in Hfuel; lia).
  cbn [mbind result_bind fst snd].
  set (st2 := set_score _ _).
  destruct (lockPiece_spec fuel st2 (set_py (spawned KO) 18) nxt)
    as (b1 & np & bag' & calls' & over & Hmerge & Hwf1 & Hlock).
  { subst st2. cbn [board set_score set_current]. rewrite Hb.
    apply wfBoard_emptyBoard. }
  { reflexivity. }
  { exact Hnxt. }
  { exact Hfuel. }
  assert (b1 = boardWithO) as ->.
  { subst st2. cbn [board set_score set_current] in Hmerge.
    rewrite Hb in Hmerge. vm_compute in Hmerge. injection Hmerge as <-.
    reflexivity. }
  exists (lockedState st2 boardWithO np bag' calls' over).
  split; [exact Hlock|].
  destruct (lockedState_scoring st2 boardWithO np bag' calls' over)
    as (Hs & Hl & Hv & _ & Hbd & Hc).
  rewrite Hs, Hl, Hv, Hbd, Hc.
  change (Z.of_nat (fullCount boardWithO)) with 0.
  rewrite applyCleared_zero. subst st2.
  cbn [score lines level next set_score set_current].
  repeat split; try reflexivity; assumption.
Qed.

(** ** Properties of the commands *)

Lemma set_current_same (st : State) (cur : Piece) :
  current st = Some cur -> set_current st (Some cur) = st.
Proof. intros H. destruct st. cbn in *. rewrite H. reflexivity. Qed.

(** C8. A horizontal move whose target position collides returns the
    state it was given: same piece position, nothing else changed, no
    other result. A move whose target does not collide changes the
    column of the current piece by [dx] and nothing else. On a board of
    [ROWS] rows one of the two happens. *)
Theorem move_reverts_on_collision (dx : Z) (st : State) (cur : Piece) :
  length (board st) = Z.to_nat ROWS ->
  current st = Some cur ->
  (collide (board st) (set_px cur (px cur + dx)) = Ok true ->
   move dx st = Ok st) /\
  (collide (board st) (set_px cur (px cur + dx)) = Ok false ->
   move dx st = Ok (set_current st (Some (set_px cur (px cur + dx))))) /\
  (collide (board st) (set_px cur (px cur + dx)) = Ok true \/
   collide (board st) (set_px cur (px cur + dx)) = Ok false).
Proof.
  intros Hlen Hcur. unfold move, getCurrent. rewrite Hcur.
  cbn [mbind result_bind]. split; [|split].
  - intros ->. cbn [mbind result_bind px set_px]. f_equal.
    replace (px cur + dx - dx) with (px cur) by lia.
    apply set_current_same. rewrite Hcur. destruct cur. reflexivity.
  - intros ->. reflexivity.
  - destruct (collide_total (board st) (set_px cur (px cur + dx)) Hlen)
      as [[] ->]; auto.
Qed.

Lemma sameGame_refl (st : State) : sameGame st st.
Proof. unfold sameGame. repeat split. Qed.

Lemma drawBoard_sameGame (fuel : nat) (st : State) :
  length (board st) = Z.to_nat ROWS ->
  (forall cur, current st = Some cur ->
     (exists r c, occupiedCell (matrix cur) r c) /\
     (Z.to_nat (ROWS - py cur) < fuel)%nat) ->
  exists st', drawBoard fuel st = Ok st' /\ sameGame st st' /\
              lastTime st' = lastTime st.
Proof.
  intros Hlen Hcur. unfold drawBoard.
  set (st1 := if flashTimer st >? 0 then _ else st).
  assert (sameGame st st1 /\ lastTime st1 = lastTime st) as [Hsame Htime].
  { subst st1. destruct (flashTimer st >? 0);
      unfold sameGame; cbn; repeat split. }
  assert (current st1 = current st) as Hc by apply Hsame.
  assert (board st1 = board st) as Hb by apply Hsame.
  rewrite Hc, Hb. destruct (current st) as [cur|] eqn:Ecur.
  - destruct (Hcur cur eq_refl) as ((r & c & Hocc) & Hfuel).
    unfold computeGhost.
    destruct (ghostLoop_terminates (board st) r c fuel Hlen cur Hocc Hfuel)
      as (n & _ & -> & _).
    cbn [mbind result_bind]. eauto.
  - eauto.
Qed.

(** C9 (amended). In the Idle and GameOver states every command that
    does not ask for a new game, and in the Paused state every command
    that is neither the pause toggle nor a click on Start or Restart
    (Space and Enter included), returns without fault and leaves the
    game as it was: a key or a click on Pause returns the very same
    state, a frame only moves the frame clock and the flash countdown,
    so gravity does nothing outside the Running state. *)
Theorem spurious_commands_ignored (fuel : nat) (cmd : Command) (st : State) :
  ((isIdle st \/ isGameOver st) /\ ~ startsNewGame cmd) \/
  (isPaused st /\ ~ togglesPause cmd /\ ~ newGameClick cmd) ->
  length (board st) = Z.to_nat ROWS ->
  (forall cur, current st = Some cur ->
     (exists r c, occupiedCell (matrix cur) r c) /\
     (Z.to_nat (ROWS - py cur) < fuel)%nat) ->
  exists st',
    dispatch fuel cmd st = Ok st' /\ sameGame st st' /\
    match cmd with
    | Frame time => lastTime st' = time
    | _ => st' = st
    end.
Proof.
  intros Hphase Hlen Hcur.
  assert (running st && negb (paused st) && negb (gameOver st) = false)
    as Hgate.
  { destruct Hphase as [[[(-> & _)|(-> & _)] _]|[(-> & -> & ->) _]];
      reflexivity. }
  destruct cmd as [e| | | |time]; cbn [dispatch].
  - exists st. split; [|split; [apply sameGame_refl|reflexivity]].
    unfold onKeyDown.
    destruct Hphase as [[Hst Hcmd]|[(Hr & Hp & Hg) [Hcmd _]]].
    + assert (running st = false) as -> by (destruct Hst as [H|H]; apply H).
      cbn [negb startsNewGame] in *.
      destruct (code e); try reflexivity; exfalso; auto.
    + rewrite Hr, Hg, Hp. cbn [negb togglesPause] in *.
      destruct (code e); try reflexivity. exfalso; auto.
  - exfalso. destruct Hphase as [[_ H]|[_ [_ H]]]; apply H; exact Logic.I.
  - exists st. split; [|split; [apply sameGame_refl|reflexivity]].
    destruct Hphase as [[Hst _]|[_ [H _]]]; [|exfalso; apply H; exact Logic.I].
    unfold togglePause.
    assert (running st = false) as -> by (destruct Hst as [H|H]; apply H).
    reflexivity.
  - exfalso. destruct Hphase as [[_ H]|[_ [_ H]]]; apply H; exact Logic.I.
  - unfold update. cbn [running paused gameOver set_lastTime].
    rewrite Hgate. cbn [mbind result_bind].
    destruct (drawBoard_sameGame fuel (set_lastTime st time))
      as (st' & Hdraw & Hsame & Htime).
    { exact Hlen. }
    { exact Hcur. }
    exists st'. split; [exact Hdraw|]. split; [|exact Htime].
    unfold sameGame in *. cbn in Hsame. exact Hsame.
Qed.

(** ** Properties of consecutive draws *)

Lemma refillBag_nonempty_id (st : State) : bag st <> [] -> refillBag st = st.
Proof. unfold refillBag. destruct (bag st); [congruence|reflexivity]. Qed.

Lemma refillBag_empty (st : State) :
  bag st = [] ->
  bag (refillBag st) ≡ₚ TYPES /\ length (bag (refillBag st)) = 7%nat.
Proof.
  intros E. unfold refillBag. rewrite E.
  pose proof (shuffleInPlace_Permutation TYPES (randomTape st)
                (randomCalls st)) as Hp.
  destruct (shuffleInPlace _ _ _) as [arr pos]. cbn in *.
  split; [exact Hp|]. rewrite Hp. reflexivity.
Qed.

Lemma refillBag_idem (st : State) : refillBag (refillBag st) = refillBag st.
Proof. apply refillBag_nonempty_id, refillBag_nonempty. Qed.

Lemma takeFromBag_refill (st : State) :
  takeFromBag (refillBag st) = takeFromBag st.
Proof. unfold takeFromBag. rewrite refillBag_idem. reflexivity. Qed.

Lemma drawN_add (n m : nat) :
  forall st, drawN (n + m) st = drawN n st ++ drawN m (afterDraws n st).
Proof.
  induction n as [|n IH]; intros st; [reflexivity|].
  cbn [Nat.add drawN afterDraws app]. rewrite IH. reflexivity.
Qed.

(** Draws from a bag that holds [l] return [l] from its end, without a
    refill, and leave the bag empty. *)
Lemma drawN_bag (l : list Kind) :
  forall st,
    bag st = l ->
    drawN (length l) st = Some <$> reverse l /\
    afterDraws (length l) st = set_bag st [].
Proof.
  induction l as [|x l IH] using rev_ind; intros st Hbag.
  - cbn. split; [reflexivity|]. destruct st. cbn in *. subst. reflexivity.
  - rewrite length_app, Nat.add_comm. cbn [length Nat.add drawN afterDraws].
    assert (takeFromBag st = (Some x, set_bag st l)) as ->.
    { unfold takeFromBag. rewrite refillBag_nonempty_id
        by (rewrite Hbag; destruct l; discriminate).
      unfold popBag. rewrite Hbag, last_snoc, removelast_last.
      reflexivity. }
    cbn [fst snd]. destruct (IH (set_bag st l) eq_refl) as [-> ->].
    rewrite reverse_snoc. split; reflexivity.
Qed.

(** Seven draws from an empty bag: a permutation of the seven kinds,
    and the bag is empty again. *)
Lemma drawN_cycle (st : State) :
  bag st = [] ->
  drawN 7 st ≡ₚ Some <$> TYPES /\ bag (afterDraws 7 st) = [].
Proof.
  intros E. destruct (refillBag_empty st E) as [Hp Hlen].
  assert (drawN 7 st = drawN 7 (refillBag st) /\
          afterDraws 7 st = afterDraws 7 (refillBag st)) as [-> ->].
  { cbn [drawN afterDraws]. rewrite takeFromBag_refill. auto. }
  destruct (drawN_bag (bag (refillBag st)) (refillBag st) eq_refl)
    as [Hd Ha].
  rewrite Hlen in Hd, Ha. rewrite Hd, Ha. split; [|reflexivity].
  rewrite reverse_Permutation, Hp. reflexivity.
Qed.

Lemma countKind_TYPES (k : Kind) : countKind k (Some <$> TYPES) = 1%nat.
Proof. destruct k; reflexivity. Qed.

Lemma length_removelast {A : Type} (l : list A) :
  (length (removelast l) <= length l)%nat.
Proof.
  induction l as [|x [|y l] IH]; cbn [removelast length] in *; lia.
Qed.

Lemma bag_bound_step (st : State) :
  (length (bag st) <= 7)%nat ->
  (length (bag (refillBag st)) <= 7)%nat /\
  (length (bag (snd (takeFromBag st))) <= 7)%nat.
Proof.
  intros Hlen.
  assert (length (bag (refillBag st)) <= 7)%nat as Hr.
  { destruct (bag st) as [|x l] eqn:E.
    - destruct (refillBag_empty st E) as [_ ->]. lia.
    - rewrite refillBag_nonempty_id by (rewrite E; discriminate).
      rewrite E. exact Hlen. }
  split; [exact Hr|].
  unfold takeFromBag, popBag. cbn [snd bag set_bag].
  pose proof (length_removelast (bag (refillBag st))). lia.
Qed.

Lemma bag_bound_afterDraws (n : nat) :
  forall st,
    (length (bag st) <= 7)%nat -> (length (bag (afterDraws n st)) <= 7)%nat.
Proof.
  induction n as [|n IH]; intros st Hlen; [exact Hlen|].
  cbn [afterDraws]. apply IH. apply bag_bound_step, Hlen.
Qed.

(** C5 (amended). Whatever the shuffles give, 14 consecutive draws that
    begin with an empty bag (a new game, or a whole number of bags
    later) contain each of the 7 kinds exactly twice. From such a start
    the bag never holds more than 7 entries, between draws and inside a
    draw, and a draw refills it exactly when it is empty, with a
    permutation of the 7 kinds. *)
Theorem bag_two_cycles (st : State) (k : Kind) :
  bag st = [] ->
  countKind k (drawN 14 st) = 2%nat /\
  drawN 14 st ≡ₚ (Some <$> TYPES) ++ (Some <$> TYPES) /\
  bag (afterDraws 7 st) = [] /\ bag (afterDraws 14 st) = [] /\
  (forall n,
     (length (bag (afterDraws n st)) <= 7)%nat /\
     (length (bag (refillBag (afterDraws n st))) <= 7)%nat) /\
  (forall s,
     (bag s = [] -> bag (refillBag s) ≡ₚ TYPES) /\
     (bag s <> [] -> refillBag s = s)).
Proof.
  intros E.
  destruct (drawN_cycle st E) as [Hp1 E1].
  destruct (drawN_cycle (afterDraws 7 st) E1) as [Hp2 E2].
  assert (drawN 14 st ≡ₚ (Some <$> TYPES) ++ (Some <$> TYPES)) as Hp.
  { change 14%nat with (7 + 7)%nat. rewrite drawN_add, Hp1, Hp2.
    reflexivity. }
  split; [|split; [exact Hp|split; [exact E1|split]]].
  - unfold countKind. rewrite Hp. destruct k; reflexivity.
  - exact E2.
  - split.
    + intros n.
      assert (length (bag (afterDraws n st)) <= 7)%nat as Hn.
      { apply bag_bound_afterDraws. rewrite E. cbn. lia. }
      split; [exact Hn|]. apply bag_bound_step, Hn.
    + intros s. split.
      * intros Hs. apply refillBag_empty, Hs.
      * apply refillBag_nonempty_id.
Qed.

(** ** Instances on the sample data *)

Lemma wfBoard_gapBoard : wfBoard gapBoard.
Proof. split; [reflexivity|]. repeat constructor. Qed.

Lemma square_TETROMINO (k : Kind) : square 4 (TETROMINO_matrix k).
Proof. destruct k; (split; [reflexivity|repeat constructor]). Qed.

Lemma occupied_spawned_O : occupiedCell (matrix (spawned KO)) 0 1.
Proof. exists [0; 1; 1; 0], 1. repeat split. Qed.

Lemma occupied_spawned_I : occupiedCell (matrix (spawned KI)) 1 0.
Proof. exists [1; 1; 1; 1], 1. repeat split. Qed.

(** C1 on the O piece at its spawn position on the empty board. *)
Lemma collide_iff_blocked_witness :
  length emptyBoard = Z.to_nat ROWS /\
  (collide emptyBoard (spawned KO) = Ok true <->
   exists y x, occupiedCell (matrix (spawned KO)) y x /\
               blocked emptyBoard (px (spawned KO)) (py (spawned KO)) y x).
Proof.
  split; [reflexivity|].
  exact (proj1 (collide_iff_blocked emptyBoard (spawned KO) eq_refl)).
Defined.

(** C2 on the T piece, which turns at its spawn position without kick. *)
Lemma tryRotate_kicks_witness :
  length emptyBoard = Z.to_nat ROWS /\
  square 4 (matrix (spawned KT)) /\
  tryRotate emptyBoard (spawned KT) = Ok (candidate (spawned KT) 0, true).
Proof.
  split; [reflexivity|]. split; [apply square_TETROMINO|].
  apply (proj1 (proj2 (tryRotate_kicks emptyBoard (spawned KT) 4 eq_refl
                         (square_TETROMINO KT))) [] 0 [-1; 1; -2; 2]).
  - reflexivity.
  - intros d Hd. apply elem_of_nil in Hd. destruct Hd.
  - reflexivity.
Defined.

(** C3 on a board with two full rows on top of the O row. *)
Lemma clearLines_removes_full_rows_witness :
  length (board (set_board loadedState topFullBoard)) = Z.to_nat ROWS /\
  (2 * Z.to_nat ROWS <= 40)%nat /\
  clearLoop 40 topFullBoard (ROWS - 1) 0 =
    Ok (emptyRow :: emptyRow :: rowWithO :: replicate 17 emptyRow, 2).
Proof.
  split; [reflexivity|]. split; [reflexivity|].
  apply (proj1 (proj2 (proj2 (proj2
           (clearLines_removes_full_rows 40 (set_board loadedState topFullBoard)
              eq_refl (le_n 40)))))
           paintedRow paintedRow (rowWithO :: replicate 17 emptyRow)).
  - reflexivity.
  - apply fullRowb_spec. reflexivity.
  - apply fullRowb_spec. reflexivity.
  - repeat constructor; intros H; apply fullRowb_spec in H; discriminate H.
Defined.

(** C4 on the O piece completing the bottom row: one line at level 1. *)
Lemma lock_scoring_witness :
  wfBoard (board gapState) /\
  current gapState = Some (set_py (spawned KO) 18) /\
  next gapState = Some (spawned KI) /\
  (2 * Z.to_nat ROWS <= 40)%nat /\
  exists b1 st',
    merge (board gapState) (set_py (spawned KO) 18) = Ok b1 /\
    lockPiece 40 gapState = Ok st' /\
    lines st' = lines gapState + Z.of_nat (fullCount b1).
Proof.
  split; [apply wfBoard_gapBoard|]. split; [reflexivity|].
  split; [reflexivity|]. split; [reflexivity|].
  destruct (lock_scoring 40 gapState (set_py (spawned KO) 18) (spawned KI)
              wfBoard_gapBoard eq_refl eq_refl (le_n 40))
    as (b1 & st' & Hm & Hl & Hn & _).
  exists b1, st'. auto.
Defined.

(** C5 (amended) on the first 14 draws of a new game. *)
Lemma bag_two_cycles_witness :
  bag loadedState = [] /\ countKind KI (drawN 14 loadedState) = 2%nat.
Proof.
  split; [reflexivity|].
  exact (proj1 (bag_two_cycles loadedState KI eq_refl)).
Defined.

(** C6 (amended) on the first piece of the sample session. *)
Lemma hardDrop_O_on_empty_board_witness :
  board startedState = emptyBoard /\
  current startedState = Some (spawned KO) /\
  next startedState = Some (spawned KI) /\
  (2 * Z.to_nat ROWS <= 64)%nat /\
  exists st',
    hardDrop 64 startedState = Ok st' /\ board st' = boardWithO /\
    score st' = score startedState + 38.
Proof.
  split; [reflexivity|]. split; [reflexivity|]. split; [reflexivity|].
  assert (2 * Z.to_nat ROWS <= 64)%nat as Hfuel by (vm_compute; lia).
  split; [exact Hfuel|].
  destruct (hardDrop_O_on_empty_board 64 startedState (spawned KI)
              eq_refl eq_refl eq_refl Hfuel)
    as (_ & _ & _ & _ & st' & Hd & Hb & Hs & _).
  exists st'. auto.
Defined.

(** C7 on four quarter turns of the T piece at its spawn position. *)
Lemma rotate_four_times_identity_witness :
  square 4 (TETROMINO_matrix KT) /\
  matrix (turnedT 4) = TETROMINO_matrix KT.
Proof.
  split; [apply square_TETROMINO|].
  apply (proj2 (rotate_four_times_identity (TETROMINO_matrix KT) emptyBoard
                  (turnedT 0) (turnedT 1) (turnedT 2) (turnedT 3) (turnedT 4)
                  (square_TETROMINO KT)));
    reflexivity.
Defined.

(** C8 on the O piece of the sample session, moved one column left. *)
Lemma move_reverts_on_collision_witness :
  length (board startedState) = Z.to_nat ROWS /\
  current startedState = Some (spawned KO) /\
  move (-1) startedState =
    Ok (set_current startedState (Some (set_px (spawned KO) 2))).
Proof.
  split; [reflexivity|]. split; [reflexivity|].
  apply (proj1 (proj2 (move_reverts_on_collision (-1) startedState
                         (spawned KO) eq_refl eq_refl))).
  reflexivity.
Defined.

(** C9 (amended) on Space during the pause of the sample session. *)
Lemma spurious_commands_ignored_witness :
  isPaused pausedState /\
  length (board pausedState) = Z.to_nat ROWS /\
  dispatch 64 (KeyDown (mkKeyEvent Space false)) pausedState = Ok pausedState.
Proof.
  assert (isPaused pausedState) as Hp by (repeat split).
  split; [exact Hp|]. split; [reflexivity|].
  destruct (spurious_commands_ignored 64
              (KeyDown (mkKeyEvent Space false)) pausedState)
    as (st' & Hd & _ & Heq).
  - right. split; [exact Hp|]. split.
    + cbn. discriminate.
    + cbn. auto.
  - reflexivity.
  - intros cur Hcur. vm_compute in Hcur. injection Hcur as <-. split.
    + exists 1%nat, 0%nat. exact occupied_spawned_I.
    + vm_compute. lia.
  - rewrite Hd, Heq. reflexivity.
Defined.

(** C10 on the O piece at its spawn position on the empty board. *)
Lemma drop_loops_terminate_witness :
  length emptyBoard = Z.to_nat ROWS /\
  occupiedCell (matrix (spawned KO)) 0 1 /\
  (Z.to_nat (ROWS - py (spawned KO)) < 64)%nat /\
  exists n : nat,
    (n <= Z.to_nat (ROWS - py (spawned KO)))%nat /\
    computeGhost 64 emptyBoard (spawned KO) =
      Ok (set_py (spawned KO) (py (spawned KO) + Z.of_nat n)).
Proof.
  assert (Z.to_nat (ROWS - py (spawned KO)) < 64)%nat as Hfuel
    by (vm_compute; lia).
  split; [reflexivity|]. split; [exact occupied_spawned_O|].
  split; [exact Hfuel|].
  destruct (proj1 (drop_loops_terminate emptyBoard (spawned KO) 0 1 64 0
                     eq_refl occupied_spawned_O Hfuel))
    as (n & Hn & Hg & _).
  exists n. auto.
Defined.

(** ** Where the behaviour differs from the stated properties *)

(** C5 as stated fails on the draws 2 to 15 of a new game with the tape
    [tapeO]: the I piece comes three times and the O piece once. *)
Lemma unaligned_draws_repeat_a_kind :
  bag loadedState = [] /\
  drawN 14 (afterDraws 1 loadedState) =
    Some <$> [KI; KJ; KZ; KS; KT; KL; KI; KL; KJ; KZ; KS; KT; KO; KI] /\
  countKind KI (drawN 14 (afterDraws 1 loadedState)) = 3%nat /\
  countKind KO (drawN 14 (afterDraws 1 loadedState)) = 1%nat /\
  countKind KI (drawN 14 (afterDraws 1 loadedState)) <> 2%nat.
Proof. vm_compute. repeat split; discriminate. Qed.

(** C6 as stated fails on the score: the hard drop of the O piece from
    its spawn position on the empty board scores 38, not
    [(ROWS - 1 - spawnRow) * 2 = 40]. *)
Lemma hardDrop_O_scores_38 :
  dispatch 64 StartClick loadedState = Ok startedState /\
  board startedState = emptyBoard /\
  current startedState = Some (spawned KO) /\
  hardDrop 64 startedState = Ok droppedState /\
  board droppedState = boardWithO /\
  score droppedState = score startedState + 38 /\
  (ROWS - 1 - py (spawned KO)) * 2 = 40 /\
  score droppedState <> score startedState + (ROWS - 1 - py (spawned KO)) * 2.
Proof. vm_compute. repeat split; discriminate. Qed.

(** C9 as stated fails in the Paused state: a click on Restart, which is
    not the pause toggle, starts a new game; the score and the board of
    the paused game are gone. *)
Lemma restart_click_resets_paused_game :
  pausedSession = Ok pausedState /\
  isPaused pausedState /\
  ~ togglesPause RestartClick /\
  restartBtnDisabled pausedState = false /\
  dispatch 64 RestartClick pausedState = Ok restartedState /\
  score pausedState = 38 /\ score restartedState = 0 /\
  board pausedState = boardWithO /\ board restartedState = emptyBoard /\
  paused restartedState = false /\
  ~ sameGame pausedState restartedState.
Proof.
  split; [vm_compute; reflexivity|].
  split; [repeat split|].
  split; [cbn; auto|].
  split; [reflexivity|].
  split; [vm_compute; reflexivity|].
  split; [reflexivity|]. split; [reflexivity|].
  split; [vm_compute; reflexivity|]. split; [vm_compute; reflexivity|].
  split; [reflexivity|].
  intros H. destruct H as (_ & _ & _ & Hs & _). vm_compute in Hs.
  discriminate Hs.
Qed.

(** ** Further properties of [merge] *)

Lemma boardSet_cell (b b1 : Board) (r0 c0 : nat) (v : Cell) (r c : nat) :
  wfBoard b -> (c0 < Z.to_nat COLS)%nat ->
  boardSet b r0 c0 v = Ok b1 ->
  boardCell b1 r c =
  if decide (r = r0 /\ c = c0) then Some v else boardCell b r c.
Proof.
  intros [Hlen Hrows] Hc0. unfold boardSet, boardCell.
  destruct (b !! r0) as [row0|] eqn:E0; [|discriminate].
  intros [= <-].
  assert (length row0 = Z.to_nat COLS) as Hrow0.
  { rewrite Forall_forall in Hrows. apply Hrows.
    apply list_elem_of_lookup. eauto. }
  destruct (decide (r = r0)) as [->|Hr].
  - rewrite list_lookup_insert_eq by (apply lookup_lt_Some in E0; exact E0).
    destruct (decide (c = c0)) as [->|Hc].
    + rewrite decide_True by auto.
      apply list_lookup_insert_eq. lia.
    + rewrite decide_False by (intros [_ ?]; congruence).
      rewrite list_lookup_insert_ne by congruence. rewrite E0. reflexivity.
  - rewrite decide_False by (intros [? _]; congruence).
    rewrite list_lookup_insert_ne by congruence. reflexivity.
Qed.

Lemma inRange_spec (r c : Z) :
  (r >=? 0) && (r <? ROWS) && (c >=? 0) && (c <? COLS) = true <->
  0 <= r < ROWS /\ 0 <= c < COLS.
Proof.
  rewrite !andb_true_iff, !Z.geb_le, !Z.ltb_lt. lia.
Qed.

Lemma mergeCells_spec (px0 py0 : Z) (col : string) (y : nat)
    (cells : list Z) :
  forall (b : Board) (x0 : nat),
    wfBoard b ->
    exists b',
      mergeCells b px0 py0 col y cells x0 = Ok b' /\ wfBoard b' /\
      forall r c, (r < Z.to_nat ROWS)%nat -> (c < Z.to_nat COLS)%nat ->
        let hit := exists i v,
          cells !! i = Some v /\ truthyNum v = true /\
          py0 + Z.of_nat y = Z.of_nat r /\
          px0 + Z.of_nat (x0 + i) = Z.of_nat c in
        (hit /\ boardCell b' r c = Some (Some col)) \/
        (~ hit /\ boardCell b' r c = boardCell b r c).
Proof.
  induction cells as [|v rest IH]; intros b x0 Hwf; cbn [mergeCells].
  - exists b. split; [reflexivity|]. split; [exact Hwf|].
    intros r c _ _. right. split; [|reflexivity].
    intros (i & w & H & _). discriminate.
  - assert (Hlift : forall r c : nat,
              (exists i w, rest !! i = Some w /\ truthyNum w = true /\
                 py0 + Z.of_nat y = Z.of_nat r /\
                 px0 + Z.of_nat (S x0 + i) = Z.of_nat c) ->
              exists i w, (v :: rest) !! i = Some w /\ truthyNum w = true /\
                 py0 + Z.of_nat y = Z.of_nat r /\
                 px0 + Z.of_nat (x0 + i) = Z.of_nat c).
    { intros r c (i & w & H1 & H2 & H3 & H4). exists (S i), w.
      repeat split; auto. rewrite <- H4. f_equal. lia. }
    assert (Hdrop : forall r c : nat,
              ~ (truthyNum v = true /\ py0 + Z.of_nat y = Z.of_nat r /\
                 px0 + Z.of_nat x0 = Z.of_nat c) ->
              ~ (exists i w, rest !! i = Some w /\ truthyNum w = true /\
                   py0 + Z.of_nat y = Z.of_nat r /\
                   px0 + Z.of_nat (S x0 + i) = Z.of_nat c) ->
              ~ exists i w, (v :: rest) !! i = Some w /\ truthyNum w = true /\
                   py0 + Z.of_nat y = Z.of_nat r /\
                   px0 + Z.of_nat (x0 + i) = Z.of_nat c).
    { intros r c Hhead Hrest (i & w & H1 & H2 & H3 & H4).
      destruct i as [|i].
      - cbn in H1. injection H1 as <-. apply Hhead.
        rewrite Nat.add_0_r in H4. auto.
      - apply Hrest. exists i, w. repeat split; auto.
        rewrite <- H4. f_equal. lia. }
    destruct (truthyNum v) eqn:Ev; cbn [negb].
    + destruct (_ && _) eqn:Ein.
      * apply inRange_spec in Ein.
        destruct (boardSet_wf b (Z.to_nat (py0 + Z.of_nat y))
                    (Z.to_nat (px0 + Z.of_nat x0)) (Some col) Hwf)
          as (b1 & Hset & Hwf1); [unfold ROWS in *; lia|].
        rewrite Hset. cbn [mbind result_bind].
        destruct (IH b1 (S x0) Hwf1) as (b' & -> & Hwf' & Hcells).
        exists b'. split; [reflexivity|]. split; [exact Hwf'|].
        intros r c Hr Hc.
        destruct (Hcells r c Hr Hc) as [[Hhit Hcell]|[Hno Hcell]].
        -- left. split; [apply Hlift, Hhit|exact Hcell].
        -- rewrite (boardSet_cell b b1 (Z.to_nat (py0 + Z.of_nat y))
                      (Z.to_nat (px0 + Z.of_nat x0)) (Some col) r c Hwf)
             in Hcell by (exact Hset || (unfold COLS in *; lia)).
           destruct (decide (r = Z.to_nat (py0 + Z.of_nat y) /\
                             c = Z.to_nat (px0 + Z.of_nat x0)))
             as [[-> ->]|Hne].
           ++ left. split; [|exact Hcell].
              exists 0%nat, v. rewrite Nat.add_0_r.
              repeat split; auto; lia.
           ++ right. split; [|exact Hcell].
              apply Hdrop; [|exact Hno].
              intros (_ & H1 & H2). apply Hne. split; lia.
      * assert (~ (0 <= py0 + Z.of_nat y < ROWS /\
                   0 <= px0 + Z.of_nat x0 < COLS)) as Hout.
        { intros H. apply inRange_spec in H. congruence. }
        destruct (IH b (S x0) Hwf) as (b' & -> & Hwf' & Hcells).
        exists b'. split; [reflexivity|]. split; [exact Hwf'|].
        intros r c Hr Hc.
        destruct (Hcells r c Hr Hc) as [[Hhit Hcell]|[Hno Hcell]].
        -- left. split; [apply Hlift, Hhit|exact Hcell].
        -- right. split; [|exact Hcell].
           apply Hdrop; [|exact Hno].
           intros (_ & H1 & H2). apply Hout. unfold ROWS, COLS in *. lia.
    + destruct (IH b (S x0) Hwf) as (b' & -> & Hwf' & Hcells).
      exists b'. split; [reflexivity|]. split; [exact Hwf'|].
      intros r c Hr Hc.
      destruct (Hcells r c Hr Hc) as [[Hhit Hcell]|[Hno Hcell]].
      * left. split; [apply Hlift, Hhit|exact Hcell].
      * right. split; [|exact Hcell].
        apply Hdrop; [|exact Hno]. intros (H & _). discriminate.
Qed.

Lemma mergeRows_spec (px0 py0 : Z) (col : string) (rows : Matrix) :
  forall (b : Board) (y0 : nat),
    wfBoard b ->
    exists b',
      mergeRows b px0 py0 col rows y0 = Ok b' /\ wfBoard b' /\
      forall r c, (r < Z.to_nat ROWS)%nat -> (c < Z.to_nat COLS)%nat ->
        let hit := exists j i,
          occupiedCell rows j i /\
          py0 + Z.of_nat (y0 + j) = Z.of_nat r /\
          px0 + Z.of_nat i = Z.of_nat c in
        (hit /\ boardCell b' r c = Some (Some col)) \/
        (~ hit /\ boardCell b' r c = boardCell b r c).
Proof.
  induction rows as [|cells rest IH]; intros b y0 Hwf; cbn [mergeRows].
  - exists b. split; [reflexivity|]. split; [exact Hwf|].
    intros r c _ _. right. split; [|reflexivity].
    intros (j & i & (row & v & H & _) & _). discriminate.
  - destruct (mergeCells_spec px0 py0 col y0 cells b 0 Hwf)
      as (b1 & -> & Hwf1 & Hhead).
    cbn [mbind result_bind].
    destruct (IH b1 (S y0) Hwf1) as (b' & -> & Hwf' & Hrest).
    exists b'. split; [reflexivity|]. split; [exact Hwf'|].
    intros r c Hr Hc.
    destruct (Hrest r c Hr Hc) as [[Hhit Hcell]|[Hno Hcell]].
    + left. split; [|exact Hcell].
      destruct Hhit as (j & i & (row & v & H1 & H2) & H3 & H4).
      exists (S j), i. split; [exists row, v; auto|].
      split; [|exact H4]. rewrite <- H3. f_equal. lia.
    + destruct (Hhead r c Hr Hc) as [[Hhit1 Hcell1]|[Hno1 Hcell1]].
      * left. split; [|congruence].
        destruct Hhit1 as (i & v & H1 & H2 & H3 & H4).
        exists 0%nat, i. split; [exists cells, v; auto|].
        rewrite Nat.add_0_r. auto.
      * right. split; [|congruence].
        intros (j & i & (row & v & H1 & H2 & H3) & H4 & H5).
        destruct j as [|j].
        -- cbn in H1. injection H1 as <-. apply Hno1.
           exists i, v. rewrite Nat.add_0_r in H4. auto.
        -- apply Hno. exists j, i. split; [exists row, v; auto|].
           split; [|exact H5]. rewrite <- H4. f_equal. lia.
Qed.

Lemma merge_spec (b : Board) (p : Piece) :
  wfBoard b ->
  exists b',
    merge b p = Ok b' /\ wfBoard b' /\
    forall r c, (r < Z.to_nat ROWS)%nat -> (c < Z.to_nat COLS)%nat ->
      (covers (px p) (py p) (matrix p) r c /\
       boardCell b' r c = Some (Some (color p))) \/
      (~ covers (px p) (py p) (matrix p) r c /\
       boardCell b' r c = boardCell b r c).
Proof.
  intros Hwf. unfold merge, covers.
  destruct (mergeRows_spec (px p) (py p) (color p) (matrix p) b 0 Hwf)
    as (b' & Hm & Hwf' & Hcells).
  exists b'. split; [exact Hm|]. split; [exact Hwf'|]. exact Hcells.
Qed.

(** X1. [merge] on a board of [ROWS] by [COLS] cells writes the colour
    of the piece into every board cell on which an occupied cell of the
    shape lands and leaves every other cell as it was; the board keeps
    its dimensions. Shape cells that land outside the board are
    dropped. *)
Theorem merge_writes_piece_cells (b : Board) (p : Piece) :
  wfBoard b ->
  exists b',
    merge b p = Ok b' /\ wfBoard b' /\
    forall r c, (r < Z.to_nat ROWS)%nat -> (c < Z.to_nat COLS)%nat ->
      (covers (px p) (py p) (matrix p) r c ->
       boardCell b' r c = Some (Some (color p))) /\
      (~ covers (px p) (py p) (matrix p) r c ->
       boardCell b' r c = boardCell b r c).
Proof.
  intros Hwf. destruct (merge_spec b p Hwf) as (b' & Hm & Hwf' & Hcells).
  exists b'. split; [exact Hm|]. split; [exact Hwf'|].
  intros r c Hr Hc.
  destruct (Hcells r c Hr Hc) as [[Hhit Hcell]|[Hno Hcell]].
  - split; [intros _; exact Hcell|]. intros H. destruct (H Hhit).
  - split; [|intros _; exact Hcell]. intros H. destruct (Hno H).
Qed.

Lemma boardCell_occupied (b : Board) (r c : nat) (v : Cell) :
  boardCell b r c = Some v -> truthyCell v = true ->
  boardOccupied b (Z.of_nat r) (Z.of_nat c).
Proof.
  unfold boardCell, boardOccupied. rewrite !Nat2Z.id.
  destruct (b !! r) as [row|]; [|discriminate].
  intros H Hv. exists row, v. auto.
Qed.

(** X2. When the piece does not collide, [merge] overwrites no locked
    cell: every board cell that held a colour holds the same colour
    afterwards. *)
Theorem merge_keeps_locked_cells (b : Board) (p : Piece) :
  wfBoard b ->
  collide b p = Ok false ->
  exists b',
    merge b p = Ok b' /\
    forall r c v, (r < Z.to_nat ROWS)%nat -> (c < Z.to_nat COLS)%nat ->
      boardCell b r c = Some v -> truthyCell v = true ->
      boardCell b' r c = Some v.
Proof.
  intros Hwf Hfree.
  destruct (merge_spec b p Hwf) as (b' & Hm & _ & Hcells).
  exists b'. split; [exact Hm|].
  intros r c v Hr Hc Hcell Hv.
  destruct (Hcells r c Hr Hc) as [[Hhit _]|[_ Heq]]; [|congruence].
  exfalso. apply collide_false in Hfree; [|apply Hwf]. apply Hfree.
  destruct Hhit as (y & x & Hocc & Hy & Hx).
  exists y, x. split; [exact Hocc|]. unfold blocked.
  right. right. right. rewrite Hy, Hx. split; [lia|].
  apply (boardCell_occupied b r c v); assumption.
Qed.

(** ** Further properties of the randomizer *)

(** X3. [shuffleInPlace] returns a permutation of its argument, of the
    same length, and makes one call of [Math.random] for each element
    but the first. *)
Theorem shuffleInPlace_permutes {A : Type} (arr : list A)
    (tape : nat -> nat) (pos : nat) :
  fst (shuffleInPlace arr tape pos) ≡ₚ arr /\
  length (fst (shuffleInPlace arr tape pos)) = length arr /\
  snd (shuffleInPlace arr tape pos) = (pos + (length arr - 1))%nat.
Proof.
  unfold shuffleInPlace.
  destruct (shuffleLoop_Permutation (length arr - 1) arr tape pos)
    as [Hp Hn].
  split; [exact Hp|]. split; [|exact Hn].
  apply Permutation_length. exact Hp.
Qed.

(** ** Further properties of [clearLines] *)

Lemma wfBoard_cleared (b : Board) :
  wfBoard b ->
  wfBoard (replicate (fullCount b) emptyRow ++ survivors b) /\
  Forall (fun row => ~ fullRow row)
    (replicate (fullCount b) emptyRow ++ survivors b).
Proof.
  intros [Hlen Hrows]. split; [split|].
  - rewrite length_app, length_replicate, survivors_fullCount_length.
    exact Hlen.
  - apply Forall_app. split.
    + apply Forall_replicate. reflexivity.
    + rewrite Forall_forall in *. intros row Hrow.
      apply list_elem_of_filter in Hrow as [_ Hrow]. apply Hrows, Hrow.
  - apply Forall_app. split.
    + apply Forall_replicate. intros H. apply fullRowb_spec in H.
      discriminate H.
    + rewrite Forall_forall. intros row Hrow.
      apply list_elem_of_filter in Hrow as [Hrow _].
      intros H. apply fullRowb_spec in H. congruence.
Qed.

(** X4. After [clearLines] the board has its [ROWS] by [COLS] cells and
    no full row; on a board without full row [clearLines] changes
    nothing, so clearing twice is clearing once. *)
Theorem clearLines_leaves_no_full_row (fuel : nat) (st : State) :
  wfBoard (board st) ->
  (2 * Z.to_nat ROWS <= fuel)%nat ->
  exists st',
    clearLines fuel st = Ok st' /\
    wfBoard (board st') /\
    Forall (fun row => ~ fullRow row) (board st') /\
    clearLines fuel st' = Ok st' /\
    (Forall (fun row => ~ fullRow row) (board st) -> st' = st).
Proof.
  intros Hwf Hfuel.
  assert (Hclear : forall s, wfBoard (board s) ->
            clearLines fuel s =
            Ok (applyCleared
                  (set_board s (replicate (fullCount (board s)) emptyRow ++
                                survivors (board s)))
                  (Z.of_nat (fullCount (board s))))).
  { intros s Hs. unfold clearLines.
    rewrite clearLoop_result by (apply Hs || exact Hfuel). reflexivity. }
  assert (Hid : forall s, Forall (fun row => ~ fullRow row) (board s) ->
            applyCleared
              (set_board s (replicate (fullCount (board s)) emptyRow ++
                            survivors (board s)))
              (Z.of_nat (fullCount (board s))) = s).
  { intros s Hs. destruct (survivors_none_full (board s) Hs) as [-> ->].
    cbn [replicate app Z.of_nat]. rewrite applyCleared_zero.
    destruct s. reflexivity. }
  eexists. split; [apply Hclear, Hwf|].
  destruct (wfBoard_cleared (board st) Hwf) as [Hwf' Hnone].
  rewrite applyCleared_board. cbn [board set_board].
  split; [exact Hwf'|]. split; [exact Hnone|]. split.
  - rewrite Hclear by (rewrite applyCleared_board; exact Hwf').
    f_equal. apply Hid. rewrite applyCleared_board. exact Hnone.
  - intros Hst. apply Hid, Hst.
Qed.

(** ** Further properties of the ghost and of the drops *)

Lemma ghostLoop_rests (fuel : nat) (b : Board) (p : Piece) (r c : nat) :
  length b = Z.to_nat ROWS ->
  occupiedCell (matrix p) r c ->
  (Z.to_nat (ROWS - py p) < fuel)%nat ->
  collide b p = Ok false ->
  exists n : nat,
    ghostLoop fuel b p = Ok (set_py p (py p + Z.of_nat n)) /\
    collide b (set_py p (py p + Z.of_nat n)) = Ok false /\
    collide b (set_py p (py p + Z.of_nat n + 1)) = Ok true.
Proof.
  intros Hlen Hocc Hfuel Hfree.
  destruct (ghostLoop_terminates b r c fuel Hlen p Hocc Hfuel)
    as (n & _ & Hloop & Hend & Hsteps).
  exists n. split; [exact Hloop|]. split; [|exact Hend].
  destruct n as [|n].
  - rewrite set_py_same. exact Hfree.
  - replace (py p + Z.of_nat (S n)) with (py p + Z.of_nat n + 1) by lia.
    apply Hsteps. lia.
Qed.

(** X5. For a piece that does not collide (with an occupied cell, on a
    board of [ROWS] rows) [computeGhost] returns the same piece at a row
    at or below its own where it does not collide and from where one
    more row down collides: the resting place of the piece. *)
Theorem computeGhost_rests (fuel : nat) (b : Board) (p : Piece) (r c : nat) :
  length b = Z.to_nat ROWS ->
  occupiedCell (matrix p) r c ->
  (Z.to_nat (ROWS - py p) < fuel)%nat ->
  collide b p = Ok false ->
  exists g,
    computeGhost fuel b p = Ok g /\
    ptype g = ptype p /\ matrix g = matrix p /\ color g = color p /\
    px g = px p /\ py p <= py g /\
    collide b g = Ok false /\
    collide b (set_py g (py g + 1)) = Ok true.
Proof.
  intros Hlen Hocc Hfuel Hfree.
  destruct (ghostLoop_rests fuel b p r c Hlen Hocc Hfuel Hfree)
    as (n & Hloop & Hrest & Hend).
  exists (set_py p (py p + Z.of_nat n)).
  split; [exact Hloop|]. cbn [ptype matrix color px py set_py].
  repeat split; try reflexivity; try assumption. lia.
Qed.

(** X6. A hard drop locks the piece where [computeGhost] shows it and
    adds 2 points for each row between the piece and its ghost. *)
Theorem hardDrop_locks_at_ghost (fuel : nat) (st : State) (cur g : Piece) :
  current st = Some cur ->
  computeGhost fuel (board st) cur = Ok g ->
  hardDrop fuel st =
  lockPiece fuel
    (set_score (set_current st (Some g)) (score st + (py g - py cur) * 2)).
Proof.
  intros Hcur Hghost. unfold hardDrop, getCurrent, computeGhost in *.
  rewrite Hcur. cbn [mbind result_bind].
  rewrite hardDropLoop_ghostLoop, Hghost. reflexivity.
Qed.

(** ** Further properties of the commands *)

Lemma togglePause_twice (st : State) :
  running st = true -> gameOver st = false ->
  running (togglePause st) = true /\ gameOver (togglePause st) = false /\
  paused (togglePause st) = negb (paused st) /\
  togglePause (togglePause st) = st.
Proof.
  intros Hr Hg. destruct st. cbn in Hr, Hg. subst.
  unfold togglePause. cbn. repeat split.
  rewrite negb_involutive. reflexivity.
Qed.

Lemma dispatch_togglesPause (fuel : nat) (cmd : Command) (st : State) :
  running st = true -> gameOver st = false -> togglesPause cmd ->
  dispatch fuel cmd st = Ok (togglePause st).
Proof.
  intros Hr Hg Hcmd. destruct cmd as [e| | | |time]; cbn in Hcmd.
  - cbn [dispatch]. unfold onKeyDown. rewrite Hr, Hg, Hcmd. reflexivity.
  - destruct Hcmd.
  - reflexivity.
  - destruct Hcmd.
  - destruct Hcmd.
Qed.

(** X9. While a game runs, two pause commands in a row (the P key or
    the Pause button, in any mix) give back the very state: the first
    flips [paused] and nothing else, the second undoes it. *)
Theorem pause_then_resume_restores (fuel : nat) (c1 c2 : Command)
    (st : State) :
  running st = true -> gameOver st = false ->
  togglesPause c1 -> togglesPause c2 ->
  dispatch fuel c1 st = Ok (set_paused st (negb (paused st))) /\
  runCommands fuel [c1; c2] st = Ok st.
Proof.
  intros Hr Hg H1 H2.
  destruct (togglePause_twice st Hr Hg) as (Hr' & Hg' & _ & Hback).
  cbn [runCommands].
  rewrite (dispatch_togglesPause fuel c1 st Hr Hg H1).
  cbn [mbind result_bind].
  rewrite (dispatch_togglesPause fuel c2 (togglePause st) Hr' Hg' H2).
  cbn [mbind result_bind]. rewrite Hback. split; [|reflexivity].
  unfold togglePause. rewrite Hr, Hg. reflexivity.
Qed.

(** ** Pieces of the game *)

Lemma createPiece_spawned (k : Kind) : createPiece (Some k) = Ok (spawned k).
Proof. destruct k; reflexivity. Qed.

Lemma pieceOk_spawned (k : Kind) : pieceOk (spawned k).
Proof.
  split; [apply square_TETROMINO|]. split; [apply TETROMINO_nonempty|].
  cbn. lia.
Qed.

Lemma collide_spawned_emptyBoard (k : Kind) :
  collide emptyBoard (spawned k) = Ok false.
Proof. destruct k; vm_compute; reflexivity. Qed.

Lemma occupiedCell_tabulate (N : nat) (f : nat -> nat -> Z) (i j : nat) :
  (i < N)%nat -> (j < N)%nat -> truthyNum (f i j) = true ->
  occupiedCell (tabulate N f) i j.
Proof.
  intros Hi Hj Hf. exists ((fun j => f i j) <$> seq 0 N), (f i j).
  split; [apply lookup_tabulate, Hi|]. split; [|exact Hf].
  rewrite list_lookup_fmap, lookup_seq_lt by exact Hj. reflexivity.
Qed.

Lemma occupiedCell_square (N : nat) (m : Matrix) (r c : nat) :
  square N m -> occupiedCell m r c ->
  (r < N)%nat /\ (c < N)%nat /\ truthyNum (matrixAt m r c) = true.
Proof.
  intros [Hlen Hrows] (row & v & Hrow & Hv & Ht).
  assert (length row = N) as Hrl.
  { rewrite Forall_forall in Hrows. apply Hrows.
    apply list_elem_of_lookup. eauto. }
  split; [apply lookup_lt_Some in Hrow; lia|].
  split; [apply lookup_lt_Some in Hv; lia|].
  unfold matrixAt. rewrite Hrow, Hv. exact Ht.
Qed.

(** A quarter turn moves the occupied cell [(r, c)] to [(c, N-1-r)]. *)
Lemma rotateClockwise_occupied (N : nat) (m : Matrix) (r c : nat) :
  square N m -> occupiedCell m r c ->
  occupiedCell (rotateClockwise m) c (N - 1 - r).
Proof.
  intros Hsq Hocc.
  destruct (occupiedCell_square N m r c Hsq Hocc) as (Hr & Hc & Ht).
  rewrite rotateClockwise_tabulate. destruct Hsq as [-> _].
  apply occupiedCell_tabulate; [lia|lia|].
  replace (N - 1 - (N - 1 - r))%nat with r by lia. exact Ht.
Qed.

Lemma pieceOk_rotated (p : Piece) :
  pieceOk p -> pieceOk (set_matrix p (rotateClockwise (matrix p))).
Proof.
  intros (Hsq & (r & c & Hocc) & Hy). split; [|split].
  - cbn [matrix set_matrix]. destruct Hsq as [Hlen Hrows].
    rewrite <- Hlen at 1. apply rotateClockwise_square.
  - exists c, (4 - 1 - r)%nat. cbn [matrix set_matrix].
    apply rotateClockwise_occupied; assumption.
  - exact Hy.
Qed.

Lemma pieceOk_set_px (p : Piece) (v : Z) : pieceOk p -> pieceOk (set_px p v).
Proof. intros H. exact H. Qed.

Lemma pieceOk_set_py (p : Piece) (v : Z) :
  pieceOk p -> -1 <= v -> pieceOk (set_py p v).
Proof. intros (Hsq & Hocc & _) Hv. split; [exact Hsq|]. split; assumption. Qed.

Lemma tryKicks_result (b : Board) (ox : Z) (kicks : list Z) :
  length b = Z.to_nat ROWS ->
  forall piece,
    exists r,
      tryKicks b piece ox kicks = Ok r /\
      forall q, r = Some q ->
        collide b q = Ok false /\ exists dx, q = set_px piece (ox + dx).
Proof.
  intros Hlen. induction kicks as [|d kicks IH]; intros piece;
    cbn [tryKicks].
  - exists None. split; [reflexivity|]. discriminate.
  - destruct (collide_total b (set_px piece (ox + d)) Hlen) as [[] Hhit];
      rewrite Hhit; cbn [mbind result_bind].
    + destruct (IH (set_px piece (ox + d))) as (r & -> & Hr).
      exists r. split; [reflexivity|]. intros q Hq.
      destruct (Hr q Hq) as (Hfree & dx & ->).
      split; [exact Hfree|]. exists dx. reflexivity.
    + eexists. split; [reflexivity|]. intros q [= <-].
      split; [exact Hhit|]. exists d. reflexivity.
Qed.

(** [tryRotate] returns a piece of the game, which does not collide
    when the piece it was given does not. *)
Lemma tryRotate_result (b : Board) (p : Piece) :
  length b = Z.to_nat ROWS -> pieceOk p ->
  exists p' r,
    tryRotate b p = Ok (p', r) /\ pieceOk p' /\
    (collide b p = Ok false -> collide b p' = Ok false).
Proof.
  intros Hlen Hp. unfold tryRotate.
  destruct (tryKicks_result b (px (set_matrix p (rotateClockwise (matrix p))))
              [0; -1; 1; -2; 2] Hlen
              (set_matrix p (rotateClockwise (matrix p))))
    as (r & -> & Hr).
  cbn [mbind result_bind]. destruct r as [q|].
  - exists q, true. split; [reflexivity|].
    destruct (Hr q eq_refl) as (Hfree & dx & ->).
    split; [|intros _; exact Hfree].
    apply pieceOk_set_px, pieceOk_rotated, Hp.
  - exists p, false. split; [destruct p; reflexivity|]. auto.
Qed.

(** ** The result of [lockPiece] *)

Lemma updateHUD_max (st : State) :
  updateHUD st = set_highScore st (Z.max (highScore st) (score st)).
Proof.
  unfold updateHUD. destruct (Z.gtb_spec (score st) (highScore st)).
  - rewrite Z.max_r by lia. reflexivity.
  - rewrite Z.max_l by lia. destruct st. reflexivity.
Qed.

Lemma applyCleared_frame (st : State) (n : Z) :
  exists s l v d f,
    applyCleared st n =
    mkState (board st) (current st) (next st) s l v (highScore st)
      (running st) (paused st) (gameOver st) (dropCounter st) (lastTime st)
      d f (bag st) (randomTape st) (randomCalls st) (startBtnDisabled st)
      (pauseBtnDisabled st) (restartBtnDisabled st).
Proof.
  unfold applyCleared. destruct (n >? 0).
  - destruct (negb _); repeat eexists; reflexivity.
  - destruct st. repeat eexists; reflexivity.
Qed.

(** [takeFromBag] reads and writes the bag and the tape position only. *)
Lemma takeFromBag_view (s1 s2 : State) :
  bag s1 = bag s2 -> randomTape s1 = randomTape s2 ->
  randomCalls s1 = randomCalls s2 ->
  fst (takeFromBag s1) = fst (takeFromBag s2) /\
  snd (takeFromBag s1) =
  set_randomCalls (set_bag s1 (bag (snd (takeFromBag s2))))
    (randomCalls (snd (takeFromBag s2))).
Proof.
  intros Hb Ht Hc. unfold takeFromBag, popBag, refillBag.
  rewrite Hb, Ht, Hc. cbn [fst snd].
  destruct (bag s2) as [|k ks] eqn:E.
  - destruct (shuffleInPlace _ _ _) as [arr pos]. cbn. auto.
  - cbn [bag set_bag randomCalls]. rewrite Hb, E, <- Hc. split; [reflexivity|].
    destruct s1. reflexivity.
Qed.

Lemma lockPiece_result (fuel : nat) (st : State) (cur nxt : Piece) :
  wfBoard (board st) ->
  current st = Some cur -> next st = Some nxt ->
  (2 * Z.to_nat ROWS <= fuel)%nat ->
  exists b1 k over,
    merge (board st) cur = Ok b1 /\ wfBoard b1 /\
    fst (takeFromBag st) = Some k /\
    collide (replicate (fullCount b1) emptyRow ++ survivors b1) nxt =
      Ok over /\
    lockPiece fuel st =
      Ok (lockedState st b1 (spawned k) (bag (snd (takeFromBag st)))
            (randomCalls (snd (takeFromBag st))) over).
Proof.
  intros Hwf Hcur Hnxt Hfuel. unfold lockPiece, getCurrent.
  rewrite Hcur. cbn [mbind result_bind].
  destruct (merge_wf (board st) cur Hwf) as (b1 & Hmerge & Hwf1).
  rewrite Hmerge. cbn [mbind result_bind].
  unfold clearLines. cbn [board set_board].
  rewrite clearLoop_result by (apply Hwf1 || exact Hfuel).
  cbn [mbind result_bind fst snd].
  set (st1 := applyCleared _ _).
  destruct (applyCleared_frame
              (set_board (set_board st b1)
                 (replicate (fullCount b1) emptyRow ++ survivors b1))
              (Z.of_nat (fullCount b1))) as (s & l & v & d & f & Hst1).
  fold st1 in Hst1. cbn [board current next highScore running paused gameOver
    dropCounter lastTime bag randomTape randomCalls startBtnDisabled
    pauseBtnDisabled restartBtnDisabled set_board] in Hst1.
  destruct (takeFromBag_view (set_current st1 (next st1)) st)
    as [Hk Hst2]; try (rewrite Hst1; reflexivity).
  destruct (takeFromBag_Some st) as [k Hkind].
  destruct (takeFromBag (set_current st1 (next st1))) as [ko st2].
  cbn [fst snd] in Hk, Hst2. rewrite Hkind in Hk. subst ko st2.
  rewrite createPiece_spawned. cbn [mbind result_bind].
  cbn [current set_next set_randomCalls set_bag set_current].
  assert (next st1 = Some nxt) as Hn1 by (rewrite Hst1; exact Hnxt).
  rewrite Hn1. cbn [mbind result_bind].
  change (board (set_next _ _)) with (board st1).
  assert (board st1 = replicate (fullCount b1) emptyRow ++ survivors b1)
    as Hb1 by (rewrite Hst1; reflexivity).
  destruct (wfBoard_cleared b1 Hwf1) as [[Hlen _] _].
  destruct (collide_total (board st1) nxt) as [over Hover];
    [rewrite Hb1; exact Hlen|].
  rewrite Hover. cbn [mbind result_bind].
  exists b1, k, over.
  split; [reflexivity|]. split; [exact Hwf1|]. split; [exact Hkind|].
  split; [rewrite <- Hb1; exact Hover|].
  unfold lockedState.
  change (applyCleared (set_board st _) _) with st1. rewrite Hn1.
  destruct over; reflexivity.
Qed.

Ltac state_fields :=
  cbv [set_board set_current set_next set_score set_lines set_level
       set_highScore set_running set_paused set_gameOver set_dropCounter
       set_lastTime set_dropInterval set_flashTimer set_bag set_randomCalls
       set_startBtnDisabled set_pauseBtnDisabled set_restartBtnDisabled
       board current next score lines level highScore running paused
       gameOver dropCounter lastTime dropInterval flashTimer bag randomTape
       randomCalls startBtnDisabled pauseBtnDisabled restartBtnDisabled].

Ltac state_simpl :=
  cbn [set_board set_current set_next set_score set_lines set_level
       set_highScore set_running set_paused set_gameOver set_dropCounter
       set_lastTime set_dropInterval set_flashTimer set_bag set_randomCalls
       set_startBtnDisabled set_pauseBtnDisabled set_restartBtnDisabled
       board current next score lines level highScore running paused
       gameOver dropCounter lastTime dropInterval flashTimer bag randomTape
       randomCalls startBtnDisabled pauseBtnDisabled restartBtnDisabled].

Lemma applyCleared_set_board (st : State) (b : Board) (n : Z) :
  applyCleared (set_board st b) n = set_board (applyCleared st n) b.
Proof.
  unfold applyCleared. destruct (n >? 0); [|reflexivity].
  cbn [lines level score set_board set_lines set_score].
  destruct (negb _); reflexivity.
Qed.

Lemma lockedState_form (st : State) (b1 : Board) (np : Piece)
    (bag' : list Kind) (calls' : nat) (over : bool) :
  let st1 := applyCleared st (Z.of_nat (fullCount b1)) in
  lockedState st b1 np bag' calls' over =
  mkState (replicate (fullCount b1) emptyRow ++ survivors b1)
    (next st) (Some np) (score st1) (lines st1) (level st1)
    (Z.max (highScore st) (score st1))
    (if over then false else running st)
    (if over then false else paused st)
    (if over then true else gameOver st)
    (dropCounter st) (lastTime st) (dropInterval st1) (flashTimer st1)
    bag' (randomTape st) calls'
    (if over then false else startBtnDisabled st)
    (if over then true else pauseBtnDisabled st)
    (if over then false else restartBtnDisabled st).
Proof.
  cbn zeta. unfold lockedState, setGameOver.
  rewrite applyCleared_set_board.
  destruct (applyCleared_frame st (Z.of_nat (fullCount b1)))
    as (s & l & v & d & f & ->).
  destruct over; rewrite !updateHUD_max; state_fields; f_equal; lia.
Qed.

Lemma lineScore_nonneg (n : Z) : 0 <= lineScore n.
Proof.
  unfold lineScore, LINE_SCORES.
  destruct n as [|n|n]; cbn; try lia.
  do 3 (destruct n as [n|n|]; cbn; try lia).
Qed.

Lemma applyCleared_progress (st : State) (n : Z) :
  0 <= n -> 0 <= lines st -> 0 <= score st ->
  level st = lines st / 10 + 1 ->
  dropInterval st = Z.max 90 (900 - (level st - 1) * 70) ->
  let s1 := applyCleared st n in
  0 <= lines s1 /\ score st <= score s1 /\ lines st <= lines s1 /\
  level s1 = lines s1 / 10 + 1 /\
  dropInterval s1 = Z.max 90 (900 - (level s1 - 1) * 70).
Proof.
  intros Hn Hl Hs Hv Hd. cbn zeta.
  destruct (Z.eq_dec n 0) as [->|Hne].
  - rewrite applyCleared_zero. repeat split; auto; lia.
  - destruct (applyCleared_pos st n) as (-> & -> & -> & ->); [lia|].
    pose proof (lineScore_nonneg n) as Hls.
    assert (1 <= level st) as Hlv.
    { rewrite Hv. pose proof (Z.div_pos (lines st) 10 Hl). lia. }
    repeat split; try lia; try nia.
Qed.

Lemma NoDup_removelast {A : Type} (l : list A) :
  NoDup l -> NoDup (removelast l).
Proof.
  destruct (decide (l = [])) as [->|Hne]; [auto|].
  destruct (proj2 (last_is_Some l) Hne) as [x Hx].
  apply last_Some in Hx as [l' ->].
  rewrite removelast_last. intros H. apply NoDup_app in H. apply H.
Qed.

Lemma NoDup_TYPES : NoDup TYPES.
Proof. apply (bool_decide_unpack _). vm_compute. exact Logic.I. Qed.

Lemma takeFromBag_bag (st : State) :
  NoDup (bag st) /\ (length (bag st) <= 7)%nat ->
  NoDup (bag (snd (takeFromBag st))) /\
  (length (bag (snd (takeFromBag st))) <= 7)%nat.
Proof.
  intros [Hnd Hlen]. split; [|apply bag_bound_step, Hlen].
  unfold takeFromBag, popBag. cbn [snd bag set_bag].
  apply NoDup_removelast.
  destruct (bag st) as [|k ks] eqn:E.
  - destruct (refillBag_empty st E) as [Hp _]. rewrite Hp.
    apply NoDup_TYPES.
  - rewrite refillBag_nonempty_id by (rewrite E; discriminate).
    rewrite E. exact Hnd.
Qed.

(** [lockPiece] re-establishes the invariant, whatever the position of
    the piece it locks. *)
Lemma lockPiece_inv (fuel : nat) (st : State) (cur nxt : Piece) :
  wfBoard (board st) ->
  current st = Some cur -> next st = Some nxt -> pieceOk nxt ->
  0 <= lines st -> 0 <= score st ->
  level st = lines st / 10 + 1 ->
  dropInterval st = Z.max 90 (900 - (level st - 1) * 70) ->
  NoDup (bag st) /\ (length (bag st) <= 7)%nat ->
  (2 * Z.to_nat ROWS <= fuel)%nat ->
  exists st',
    lockPiece fuel st = Ok st' /\ engineInv st' /\
    score st <= score st' /\ lines st <= lines st' /\
    highScore st <= highScore st'.
Proof.
  intros Hwf Hcur Hnxt Hok Hl Hs Hv Hd Hbag Hfuel.
  destruct (lockPiece_result fuel st cur nxt Hwf Hcur Hnxt Hfuel)
    as (b1 & k & over & _ & Hwf1 & _ & Hover & ->).
  eexists. split; [reflexivity|].
  rewrite lockedState_form. cbv zeta.
  destruct (applyCleared_progress st (Z.of_nat (fullCount b1)))
    as (Hl1 & Hs1 & Hll & Hv1 & Hd1); try assumption; [lia|].
  destruct (wfBoard_cleared b1 Hwf1) as [Hwfc Hnone].
  destruct (takeFromBag_bag st Hbag) as [Hnd' Hlen'].
  split; [|state_simpl; repeat split; lia].
  constructor; state_simpl; rewrite ?Hnxt; try assumption; try lia.
  - intros p [= <-]. exact Hok.
  - intros p [= <-]. apply pieceOk_spawned.
  - intros _. split; eauto.
  - intros Hrun Hgo p [= <-]. destruct over; [discriminate|]. exact Hover.
  - auto.
Qed.

(** X7. [lockPiece] promotes the next piece and ends the game exactly
    when that piece collides at its spawn position on the board left by
    the lock; the game then neither runs nor is paused, otherwise both
    flags are untouched. *)
Theorem lock_ends_game_iff_spawn_blocked (fuel : nat) (st : State)
    (cur nxt : Piece) :
  wfBoard (board st) ->
  current st = Some cur -> next st = Some nxt ->
  (2 * Z.to_nat ROWS <= fuel)%nat ->
  gameOver st = false ->
  exists st',
    lockPiece fuel st = Ok st' /\
    current st' = Some nxt /\
    (gameOver st' = true <-> collide (board st') nxt = Ok true) /\
    (gameOver st' = true -> running st' = false /\ paused st' = false) /\
    (gameOver st' = false ->
     running st' = running st /\ paused st' = paused st).
Proof.
  intros Hwf Hcur Hnxt Hfuel Hgo.
  destruct (lockPiece_result fuel st cur nxt Hwf Hcur Hnxt Hfuel)
    as (b1 & k & over & _ & _ & _ & Hover & ->).
  eexists. split; [reflexivity|].
  rewrite lockedState_form. cbv zeta. state_simpl.
  rewrite Hover, Hgo. split; [exact Hnxt|].
  destruct over; repeat split; auto; discriminate.
Qed.

(** ** The result of [startNewGame] *)

Lemma takeFromBag_snoc (st : State) (l : list Kind) (k : Kind) :
  bag st = l ++ [k] -> takeFromBag st = (Some k, set_bag st l).
Proof.
  intros Hbag. unfold takeFromBag.
  rewrite refillBag_nonempty_id by (rewrite Hbag; destruct l; discriminate).
  unfold popBag. rewrite Hbag, last_snoc, removelast_last. reflexivity.
Qed.

(** The first draw of a session that starts with an empty bag. *)
Lemma takeFromBag_fresh (st : State) :
  bag st = [] ->
  exists k1 k2 rest calls,
    rest ++ [k2; k1] ≡ₚ TYPES /\
    takeFromBag st =
    (Some k1, set_randomCalls (set_bag st (rest ++ [k2])) calls).
Proof.
  intros Hbag. rewrite <- takeFromBag_refill.
  destruct (refillBag_empty st Hbag) as [Hp Hlen].
  assert (exists calls, forall l,
            set_bag (refillBag st) l =
            set_randomCalls (set_bag st l) calls) as [calls Hset].
  { unfold refillBag. rewrite Hbag.
    destruct (shuffleInPlace _ _ _) as [arr pos]. exists pos.
    reflexivity. }
  destruct (bag (refillBag st))
    as [|a1 [|a2 [|a3 [|a4 [|a5 [|a6 [|a7 [|a8 arr]]]]]]]] eqn:E;
    try discriminate Hlen.
  exists a7, a6, [a1; a2; a3; a4; a5], calls. split; [exact Hp|].
  rewrite (takeFromBag_snoc (refillBag st) [a1; a2; a3; a4; a5; a6] a7 E).
  rewrite Hset. reflexivity.
Qed.

Lemma startNewGame_form (st : State) :
  exists k1 k2 rest calls,
    rest ++ [k2; k1] ≡ₚ TYPES /\
    startNewGame st =
    Ok (mkState emptyBoard (Some (spawned k1)) (Some (spawned k2))
          0 0 1 (Z.max (highScore st) 0) true false false (inject_Z 0)
          (lastTime st) 900 (flashTimer st) rest (randomTape st) calls
          true false false).
Proof.
  unfold startNewGame. cbv zeta.
  set (s0 := set_bag _ []).
  destruct (takeFromBag_fresh s0 eq_refl)
    as (k1 & k2 & rest & calls & Hp & ->).
  exists k1, k2, rest, calls. split; [exact Hp|].
  rewrite createPiece_spawned. cbn [mbind result_bind].
  rewrite (takeFromBag_snoc _ rest k2) by reflexivity.
  rewrite createPiece_spawned. cbn [mbind result_bind].
  rewrite updateHUD_max. subst s0. reflexivity.
Qed.

(** X8. From any state [startNewGame] returns without fault a running
    game on the empty board with score 0, no line, level 1 and the
    slowest speed; its two pieces are at the spawn position, are of
    different kinds, the bag holds the five other kinds, and the current
    piece does not collide. *)
Theorem startNewGame_fresh_game (st : State) :
  exists st' k1 k2,
    startNewGame st = Ok st' /\
    board st' = emptyBoard /\
    score st' = 0 /\ lines st' = 0 /\ level st' = 1 /\
    dropInterval st' = 900 /\
    running st' = true /\ paused st' = false /\ gameOver st' = false /\
    current st' = Some (spawned k1) /\ next st' = Some (spawned k2) /\
    k1 <> k2 /\ bag st' ++ [k2; k1] ≡ₚ TYPES /\ length (bag st') = 5%nat /\
    highScore st' = Z.max (highScore st) 0 /\
    collide (board st') (spawned k1) = Ok false.
Proof.
  destruct (startNewGame_form st) as (k1 & k2 & rest & calls & Hp & ->).
  eexists. exists k1, k2. split; [reflexivity|]. state_simpl.
  repeat (split; [reflexivity|]).
  split; [|split; [exact Hp|split; [|split; [reflexivity|]]]].
  - pose proof NoDup_TYPES as Hnd. rewrite <- Hp in Hnd.
    apply NoDup_app in Hnd as (_ & _ & Hnd).
    apply NoDup_cons in Hnd as [Hnot _]. intros ->.
    apply Hnot. apply elem_of_cons. auto.
  - apply Permutation_length in Hp. rewrite length_app in Hp.
    cbn in Hp. lia.
  - apply collide_spawned_emptyBoard.
Qed.

(** ** The invariant of the session *)

Lemma wfBoard_noFull_emptyBoard :
  wfBoard emptyBoard /\ Forall (fun row => ~ fullRow row) emptyBoard.
Proof.
  split; [apply wfBoard_emptyBoard|].
  apply Forall_replicate. intros H. apply fullRowb_spec in H.
  discriminate H.
Qed.

Lemma initState_inv (tape : nat -> nat) (hs : Z) (sb pb rb : bool) :
  engineInv (initState tape hs sb pb rb).
Proof.
  destruct wfBoard_noFull_emptyBoard as [Hwf Hnone].
  constructor; unfold initState; state_simpl;
    try assumption; try discriminate; try reflexivity; try lia.
  all: try (split; [apply NoDup_nil; exact Logic.I|cbn; lia]).
  all: try (intros [H|H]; discriminate H).
Qed.

Lemma startNewGame_inv (st : State) :
  exists st', startNewGame st = Ok st' /\ engineInv st'.
Proof.
  destruct (startNewGame_form st) as (k1 & k2 & rest & calls & Hp & ->).
  eexists. split; [reflexivity|].
  destruct wfBoard_noFull_emptyBoard as [Hwf Hnone].
  pose proof NoDup_TYPES as Hnd. rewrite <- Hp in Hnd.
  apply NoDup_app in Hnd as (Hnd & _ & _).
  apply Permutation_length in Hp. rewrite length_app in Hp. cbn in Hp.
  constructor; state_simpl; try assumption; try reflexivity; try lia.
  - intros p [= <-]. apply pieceOk_spawned.
  - intros p [= <-]. apply pieceOk_spawned.
  - intros _. split; eauto.
  - intros _ _ p [= <-]. apply collide_spawned_emptyBoard.
  - split; [exact Hnd|lia].
Qed.

Ltac inv_frame H :=
  destruct H; constructor; state_simpl; assumption.

Lemma inv_set_current (st : State) (q : Piece) :
  engineInv st -> pieceOk q ->
  (running st = true -> gameOver st = false ->
   collide (board st) q = Ok false) ->
  engineInv (set_current st (Some q)).
Proof.
  intros H Hq Hfree. destruct H.
  constructor; state_simpl; try assumption.
  - intros p [= <-]. exact Hq.
  - intros Hrun. split; [eauto|]. apply inv_pieces0, Hrun.
  - intros Hrun Hgo p [= <-]. apply Hfree; assumption.
Qed.

Lemma inv_updateHUD_score (st : State) (s : Z) :
  engineInv st -> 0 <= s ->
  engineInv (updateHUD (set_score st s)).
Proof.
  intros H Hs. rewrite updateHUD_max. destruct H.
  constructor; state_simpl; try assumption. intros _. lia.
Qed.

Lemma inv_updateHUD (st : State) : engineInv st -> engineInv (updateHUD st).
Proof.
  intros H. rewrite updateHUD_max. destruct H.
  constructor; state_simpl; try assumption. intros _. lia.
Qed.

Lemma inv_running_pieces (st : State) :
  engineInv st -> running st = true ->
  exists cur nxt,
    current st = Some cur /\ next st = Some nxt /\
    pieceOk cur /\ pieceOk nxt.
Proof.
  intros H Hrun. destruct (inv_pieces st H Hrun) as [[cur Hc] [nxt Hn]].
  exists cur, nxt. split; [exact Hc|]. split; [exact Hn|]. split.
  - apply (inv_current st H), Hc.
  - apply (inv_next st H), Hn.
Qed.

Lemma set_px_back (p : Piece) (dx : Z) :
  set_px (set_px p (px p + dx)) (px (set_px p (px p + dx)) - dx) = p.
Proof. destruct p. unfold set_px. cbn. f_equal. lia. Qed.

Lemma set_py_back (p : Piece) :
  set_py (set_py p (py p + 1)) (py (set_py p (py p + 1)) - 1) = p.
Proof. destruct p. unfold set_py. cbn. f_equal. lia. Qed.

Ltac grows_tac := unfold grows; state_simpl; lia.

Lemma grows_refl (st : State) : grows st st.
Proof. grows_tac. Qed.

Lemma move_inv (dx : Z) (st : State) :
  engineInv st -> running st = true ->
  exists st', move dx st = Ok st' /\ engineInv st' /\ grows st st'.
Proof.
  intros H Hrun.
  destruct (inv_running_pieces st H Hrun) as (cur & nxt & Hc & _ & Hok & _).
  unfold move, getCurrent. rewrite Hc. cbn [mbind result_bind].
  destruct (collide_total (board st) (set_px cur (px cur + dx)))
    as [[] Hhit]; [apply H| |]; rewrite Hhit; cbn [mbind result_bind].
  - rewrite set_px_back. rewrite set_current_same by exact Hc.
    exists st. auto using grows_refl.
  - eexists. split; [reflexivity|]. split; [|grows_tac].
    apply inv_set_current; [exact H|apply pieceOk_set_px, Hok|].
    intros _ _. exact Hhit.
Qed.

Lemma rotateCurrent_inv (st : State) :
  engineInv st -> running st = true ->
  exists st', rotateCurrent st = Ok st' /\ engineInv st' /\ grows st st'.
Proof.
  intros H Hrun.
  destruct (inv_running_pieces st H Hrun) as (cur & nxt & Hc & _ & Hok & _).
  unfold rotateCurrent, getCurrent. rewrite Hc. cbn [mbind result_bind].
  destruct (tryRotate_result (board st) cur) as (p' & r & -> & Hp' & Hfree);
    [apply H|exact Hok|].
  cbn [mbind result_bind fst]. eexists. split; [reflexivity|].
  split; [|grows_tac].
  apply inv_set_current; [exact H|exact Hp'|].
  intros Hr Hg. apply Hfree. apply (inv_free st H Hr Hg), Hc.
Qed.

Lemma lockPiece_inv_at (fuel : nat) (st : State) (q : Piece) (s : Z) :
  engineInv st -> running st = true -> score st <= s ->
  (2 * Z.to_nat ROWS <= fuel)%nat ->
  exists st',
    lockPiece fuel (set_score (set_current st (Some q)) s) = Ok st' /\
    engineInv st' /\ grows st st'.
Proof.
  intros H Hrun Hs Hfuel.
  destruct (inv_running_pieces st H Hrun) as (cur & nxt & _ & Hn & _ & Hok).
  destruct (lockPiece_inv fuel (set_score (set_current st (Some q)) s) q nxt)
    as (st' & Hlock & Hinv & Hsc & Hln & _); state_simpl;
    try (destruct H; assumption); try reflexivity.
  - destruct H. lia.
  - exists st'. split; [exact Hlock|]. split; [exact Hinv|].
    revert Hsc Hln. grows_tac.
Qed.

Lemma dropOne_inv (fuel : nat) (st : State) :
  engineInv st -> running st = true ->
  (2 * Z.to_nat ROWS <= fuel)%nat ->
  exists st' locked,
    dropOne fuel st = Ok (st', locked) /\ engineInv st' /\ grows st st'.
Proof.
  intros H Hrun Hfuel.
  destruct (inv_running_pieces st H Hrun) as (cur & nxt & Hc & Hn & Hok & Hnok).
  unfold dropOne, getCurrent. rewrite Hc. cbn [mbind result_bind].
  destruct (collide_total (board st) (set_py cur (py cur + 1)))
    as [[] Hhit]; [apply H| |]; rewrite Hhit; cbn [mbind result_bind].
  - rewrite set_py_back.
    destruct (lockPiece_inv fuel (set_current st (Some cur)) cur nxt)
      as (st' & Hlock & Hinv & Hs & Hl & _); state_simpl;
      try (destruct H; assumption); try reflexivity.
    rewrite Hlock. cbn [mbind result_bind].
    exists st', true. split; [reflexivity|]. split; [exact Hinv|].
    revert Hs Hl. grows_tac.
  - eexists. eexists. split; [reflexivity|]. split; [|grows_tac].
    apply inv_set_current; [exact H| |intros _ _; exact Hhit].
    apply pieceOk_set_py; [exact Hok|]. destruct Hok as (_ & _ & Hy). lia.
Qed.

Lemma softDrop_inv (fuel : nat) (st : State) :
  engineInv st -> running st = true ->
  (2 * Z.to_nat ROWS <= fuel)%nat ->
  exists st', softDrop fuel st = Ok st' /\ engineInv st' /\ grows st st'.
Proof.
  intros H Hrun Hfuel. unfold softDrop.
  destruct (dropOne_inv fuel st H Hrun Hfuel)
    as (st' & locked & -> & Hinv & Hs & Hl).
  cbn [mbind result_bind fst snd]. eexists. split; [reflexivity|].
  rewrite updateHUD_max.
  destruct locked; cbn [negb]; (split; [|revert Hs Hl; grows_tac]).
  - rewrite <- updateHUD_max. apply inv_updateHUD, Hinv.
  - rewrite <- updateHUD_max.
    apply inv_updateHUD_score; [exact Hinv|]. destruct Hinv. lia.
Qed.

Lemma hardDrop_inv (fuel : nat) (st : State) :
  engineInv st -> running st = true ->
  (2 * Z.to_nat ROWS <= fuel)%nat ->
  exists st', hardDrop fuel st = Ok st' /\ engineInv st' /\ grows st st'.
Proof.
  intros H Hrun Hfuel.
  destruct (inv_running_pieces st H Hrun)
    as (cur & nxt & Hc & Hn & (Hsq & (r & c & Hocc) & Hy) & Hnok).
  unfold hardDrop, getCurrent. rewrite Hc. cbn [mbind result_bind].
  rewrite hardDropLoop_ghostLoop.
  destruct (ghostLoop_terminates (board st) r c fuel) with (p := cur)
    as (n & _ & -> & _); [apply H|exact Hocc|unfold ROWS in *; lia|].
  cbn [mbind result_bind fst snd py set_py].
  apply lockPiece_inv_at; try assumption. state_simpl. lia.
Qed.

Lemma drawBoard_inv (fuel : nat) (st : State) :
  engineInv st -> (2 * Z.to_nat ROWS <= fuel)%nat ->
  exists st', drawBoard fuel st = Ok st' /\ engineInv st' /\ grows st st'.
Proof.
  intros H Hfuel. unfold drawBoard.
  set (st1 := if flashTimer st >? 0 then _ else st).
  assert (engineInv st1 /\ grows st st1 /\ current st1 = current st /\
          board st1 = board st) as (Hinv & Hgr & -> & ->).
  { subst st1. destruct (flashTimer st >? 0); [|auto using grows_refl].
    split; [inv_frame H|]. split; [grows_tac|auto]. }
  destruct (current st) as [cur|] eqn:Hc; [|eauto].
  destruct (inv_current st H cur Hc) as (_ & (r & c & Hocc) & Hy).
  unfold computeGhost.
  destruct (ghostLoop_terminates (board st) r c fuel) with (p := cur)
    as (n & _ & -> & _); [apply H|exact Hocc|unfold ROWS in *; lia|].
  cbn [mbind result_bind]. eauto.
Qed.

Lemma grows_trans (s1 s2 s3 : State) :
  grows s1 s2 -> grows s2 s3 -> grows s1 s3.
Proof. unfold grows. lia. Qed.

Lemma update_inv (fuel : nat) (time : Q) (st : State) :
  engineInv st -> (2 * Z.to_nat ROWS <= fuel)%nat ->
  exists st', update fuel time st = Ok st' /\ engineInv st' /\ grows st st'.
Proof.
  intros H Hfuel. unfold update.
  assert (engineInv (set_lastTime st time)) as H1 by inv_frame H.
  cbn [running paused gameOver dropCounter dropInterval set_lastTime
       set_dropCounter].
  destruct (running st && negb (paused st) && negb (gameOver st)) eqn:Egate.
  - assert (running st = true) as Hrun.
    { destruct (running st); [reflexivity|discriminate Egate]. }
    destruct (Qle_bool _ _).
    + set (st2 := set_dropCounter _ _).
      assert (engineInv st2) as H2 by (subst st2; inv_frame H1).
      destruct (dropOne_inv fuel st2 H2 Hrun Hfuel)
        as (st' & locked & -> & Hinv & Hgr).
      cbn [mbind result_bind fst].
      destruct (drawBoard_inv fuel (set_dropCounter st' (inject_Z 0)))
        as (st'' & -> & Hinv' & Hgr'); [inv_frame Hinv|exact Hfuel|].
      exists st''. split; [reflexivity|]. split; [exact Hinv'|].
      revert Hgr Hgr'. subst st2. grows_tac.
    + cbn [mbind result_bind].
      destruct (drawBoard_inv fuel
                  (set_dropCounter (set_lastTime st time)
                     (Qplus (dropCounter st) (Qminus time (lastTime st)))))
        as (st'' & -> & Hinv' & Hgr'); [inv_frame H1|exact Hfuel|].
      exists st''. split; [reflexivity|]. split; [exact Hinv'|].
      revert Hgr'. grows_tac.
  - cbn [mbind result_bind].
    destruct (drawBoard_inv fuel (set_lastTime st time) H1 Hfuel)
      as (st'' & -> & Hinv' & Hgr').
    exists st''. split; [reflexivity|]. split; [exact Hinv'|].
    revert Hgr'. grows_tac.
Qed.

Lemma togglePause_inv (st : State) :
  engineInv st -> engineInv (togglePause st) /\ grows st (togglePause st).
Proof.
  intros H. unfold togglePause.
  destruct (negb (running st) || gameOver st); [auto using grows_refl|].
  split; [inv_frame H|grows_tac].
Qed.

Lemma onKeyDown_inv (fuel : nat) (e : KeyEvent) (st : State) :
  engineInv st -> (2 * Z.to_nat ROWS <= fuel)%nat ->
  exists st',
    onKeyDown fuel e st = Ok st' /\ engineInv st' /\
    (keepsGame st (KeyDown e) -> grows st st').
Proof.
  intros H Hfuel. unfold onKeyDown, keepsGame.
  destruct (togglePause_inv st H) as [Htp Htg].
  destruct (running st) eqn:Hrun; cbn [negb].
  - assert (forall op,
              (exists st', op = Ok st' /\ engineInv st' /\ grows st st') ->
              exists st', op = Ok st' /\ engineInv st' /\
                (true = true \/ code e <> Space /\ code e <> Enter ->
                 grows st st')) as Hweak.
    { intros op (st' & Ho & Hi & Hg). exists st'. auto. }
    assert (exists st', Ok st = Ok st' /\ engineInv st' /\
              (true = true \/ code e <> Space /\ code e <> Enter ->
               grows st st')) as Hsame.
    { exists st. auto using grows_refl. }
    destruct (gameOver st); [exact Hsame|].
    destruct (code e);
      first
        [ (destruct (paused st); [exact Hsame|]);
          first
            [ exact Hsame
            | (destruct (negb (repeat e)); [|exact Hsame]); apply Hweak;
              solve [auto using rotateCurrent_inv, hardDrop_inv]
            | apply Hweak; solve [auto using move_inv, softDrop_inv] ]
        | exists (togglePause st); split; [reflexivity|]; solve [auto] ].
  - destruct (code e);
      try (destruct (startNewGame_inv st) as (st' & -> & Hi);
           exists st'; split; [reflexivity|]; split; [exact Hi|];
           intros [Hf|[Hs He]]; [discriminate Hf|congruence]);
      (exists st; split; [reflexivity|]; split; [exact H|];
       intros _; apply grows_refl).
Qed.

(** Every command keeps the invariant and returns without fault; score
    and lines do not go down unless the command starts a new game. *)
Lemma dispatch_inv (fuel : nat) (cmd : Command) (st : State) :
  engineInv st -> (2 * Z.to_nat ROWS <= fuel)%nat ->
  exists st',
    dispatch fuel cmd st = Ok st' /\ engineInv st' /\
    (keepsGame st cmd -> grows st st').
Proof.
  intros H Hfuel. destruct cmd as [e| | | |time]; cbn [dispatch].
  - apply onKeyDown_inv; assumption.
  - destruct (startNewGame_inv st) as (st' & -> & Hi).
    exists st'. cbn. intuition.
  - destruct (togglePause_inv st H) as [Htp Htg].
    exists (togglePause st). auto.
  - destruct (startNewGame_inv st) as (st' & -> & Hi).
    exists st'. cbn. intuition.
  - destruct (update_inv fuel time st H Hfuel) as (st' & -> & Hi & Hg).
    exists st'. auto.
Qed.

Lemma runCommands_inv (fuel : nat) (cmds : list Command) :
  (2 * Z.to_nat ROWS <= fuel)%nat ->
  forall st,
    engineInv st ->
    exists st', runCommands fuel cmds st = Ok st' /\ engineInv st'.
Proof.
  intros Hfuel. induction cmds as [|cmd cmds IH]; intros st H;
    cbn [runCommands].
  - eauto.
  - destruct (dispatch_inv fuel cmd st H Hfuel) as (st1 & -> & H1 & _).
    cbn [mbind result_bind]. apply IH, H1.
Qed.

(** ** Sessions: any commands after the loading of the page *)

(** X10. Whatever keys, clicks and frames follow the loading of the
    page, no command throws and no loop of the engine runs away: the
    commands all return a state. *)
Theorem session_never_faults (fuel : nat) (tape : nat -> nat) (hs : Z)
    (sb pb rb : bool) (cmds : list Command) :
  (2 * Z.to_nat ROWS <= fuel)%nat ->
  exists st, runCommands fuel cmds (initState tape hs sb pb rb) = Ok st.
Proof.
  intros Hfuel.
  destruct (runCommands_inv fuel cmds Hfuel _ (initState_inv tape hs sb pb rb))
    as (st & Hrun & _).
  exists st. exact Hrun.
Qed.

Lemma session_inv (fuel : nat) (tape : nat -> nat) (hs : Z)
    (sb pb rb : bool) (cmds : list Command) (st : State) :
  (2 * Z.to_nat ROWS <= fuel)%nat ->
  runCommands fuel cmds (initState tape hs sb pb rb) = Ok st ->
  engineInv st.
Proof.
  intros Hfuel Hrun.
  destruct (runCommands_inv fuel cmds Hfuel _ (initState_inv tape hs sb pb rb))
    as (st' & Hrun' & Hinv).
  rewrite Hrun' in Hrun. injection Hrun as <-. exact Hinv.
Qed.

(** X11. After any commands the board has [ROWS] rows of [COLS] cells
    and none of its rows is full. *)
Theorem session_board_has_no_full_row (fuel : nat) (tape : nat -> nat)
    (hs : Z) (sb pb rb : bool) (cmds : list Command) (st : State) :
  (2 * Z.to_nat ROWS <= fuel)%nat ->
  runCommands fuel cmds (initState tape hs sb pb rb) = Ok st ->
  wfBoard (board st) /\ Forall (fun row => ~ fullRow row) (board st).
Proof.
  intros Hfuel Hrun.
  destruct (session_inv fuel tape hs sb pb rb cmds st Hfuel Hrun).
  auto.
Qed.

(** X12. After any commands, while a game runs (paused or not) there
    are a current and a next piece, both 4 by 4 shapes with an occupied
    cell, and the current piece does not collide: it never overlaps a
    locked cell and never leaves the columns or the floor. *)
Theorem session_piece_never_overlaps (fuel : nat) (tape : nat -> nat)
    (hs : Z) (sb pb rb : bool) (cmds : list Command) (st : State) :
  (2 * Z.to_nat ROWS <= fuel)%nat ->
  runCommands fuel cmds (initState tape hs sb pb rb) = Ok st ->
  running st = true -> gameOver st = false ->
  exists cur nxt,
    current st = Some cur /\ next st = Some nxt /\
    pieceOk cur /\ pieceOk nxt /\
    collide (board st) cur = Ok false.
Proof.
  intros Hfuel Hrun Hr Hg.
  pose proof (session_inv fuel tape hs sb pb rb cmds st Hfuel Hrun) as H.
  destruct (inv_running_pieces st H Hr) as (cur & nxt & Hc & Hn & Hok & Hnok).
  exists cur, nxt. repeat split; try assumption; try apply Hok;
    try apply Hnok.
  apply (inv_free st H Hr Hg), Hc.
Qed.

(** X13. After any commands the level is [floor(lines / 10) + 1] and
    the drop interval is [max(90, 900 - (level - 1) * 70)]: score and
    lines are not negative, the level is at least 1 and the interval
    stays between 90 and 900 ms. *)
Theorem session_level_and_speed (fuel : nat) (tape : nat -> nat)
    (hs : Z) (sb pb rb : bool) (cmds : list Command) (st : State) :
  (2 * Z.to_nat ROWS <= fuel)%nat ->
  runCommands fuel cmds (initState tape hs sb pb rb) = Ok st ->
  0 <= score st /\ 0 <= lines st /\
  level st = lines st / 10 + 1 /\ 1 <= level st /\
  dropInterval st = Z.max 90 (900 - (level st - 1) * 70) /\
  90 <= dropInterval st <= 900.
Proof.
  intros Hfuel Hrun.
  destruct (session_inv fuel tape hs sb pb rb cmds st Hfuel Hrun).
  assert (1 <= level st) as Hlv.
  { rewrite inv_level0. pose proof (Z.div_pos (lines st) 10 inv_lines0).
    lia. }
  repeat split; try assumption; lia.
Qed.

(** X14. After any commands the bag holds no kind twice, and at most 7
    kinds. *)
Theorem session_bag_has_no_repeat (fuel : nat) (tape : nat -> nat)
    (hs : Z) (sb pb rb : bool) (cmds : list Command) (st : State) :
  (2 * Z.to_nat ROWS <= fuel)%nat ->
  runCommands fuel cmds (initState tape hs sb pb rb) = Ok st ->
  NoDup (bag st) /\ (length (bag st) <= 7)%nat.
Proof.
  intros Hfuel Hrun.
  destruct (session_inv fuel tape hs sb pb rb cmds st Hfuel Hrun).
  assumption.
Qed.


(** ** Soft drop *)

Lemma updateHUD_idem (st : State) : updateHUD (updateHUD st) = updateHUD st.
Proof.
  rewrite !updateHUD_max. state_fields. f_equal. lia.
Qed.

Lemma lockPiece_shows_score (fuel : nat) (st st' : State) :
  lockPiece fuel st = Ok st' -> updateHUD st' = st'.
Proof.
  unfold lockPiece. intros H.
  destruct (getCurrent st) as [cur| |]; cbn [mbind result_bind] in H;
    try discriminate H.
  destruct (merge (board st) cur) as [b| |]; cbn [mbind result_bind] in H;
    try discriminate H.
  destruct (clearLines fuel (set_board st b)) as [s1| |];
    cbn [mbind result_bind] in H; try discriminate H.
  destruct (takeFromBag (set_current s1 (next s1))) as [k s2].
  destruct (createPiece k) as [np| |]; cbn [mbind result_bind] in H;
    try discriminate H.
  destruct (getCurrent (set_next s2 (Some np))) as [cur'| |];
    cbn [mbind result_bind] in H; try discriminate H.
  destruct (collide _ cur') as [hit| |]; cbn [mbind result_bind] in H;
    try discriminate H.
  injection H as <-. apply updateHUD_idem.
Qed.

(** X16. A soft drop whose target row is free moves the piece one row
    down and adds 1 to the score, touching nothing else but the shown
    high score; a soft drop whose target row collides is exactly
    [lockPiece] on the state as it was: the piece is locked where it
    stands and no point is added for the drop. *)
Theorem softDrop_moves_or_locks (fuel : nat) (st : State) (cur : Piece) :
  current st = Some cur ->
  (collide (board st) (set_py cur (py cur + 1)) = Ok false ->
   softDrop fuel st =
   Ok (updateHUD (set_score (set_current st (Some (set_py cur (py cur + 1))))
                    (score st + 1)))) /\
  (collide (board st) (set_py cur (py cur + 1)) = Ok true ->
   softDrop fuel st = lockPiece fuel st).
Proof.
  intros Hc. unfold softDrop, dropOne, getCurrent. rewrite Hc.
  cbn [mbind result_bind]. split; intros ->; cbn [mbind result_bind].
  - reflexivity.
  - rewrite set_py_back, set_current_same by exact Hc.
    destruct (lockPiece fuel st) as [st'| |] eqn:Hlock;
      cbn [mbind result_bind fst snd negb]; try reflexivity.
    f_equal. apply (lockPiece_shows_score fuel st), Hlock.
Qed.

(** X17. After any commands, a further command that does not start a
    new game never lowers the score, the number of lines or the level,
    and never lengthens the drop interval. *)
Theorem session_score_never_goes_down (fuel : nat) (tape : nat -> nat)
    (hs : Z) (sb pb rb : bool) (cmds : list Command) (st : State)
    (cmd : Command) (st' : State) :
  (2 * Z.to_nat ROWS <= fuel)%nat ->
  runCommands fuel cmds (initState tape hs sb pb rb) = Ok st ->
  keepsGame st cmd ->
  dispatch fuel cmd st = Ok st' ->
  score st <= score st' /\ lines st <= lines st' /\
  level st <= level st' /\ dropInterval st' <= dropInterval st.
Proof.
  intros Hfuel Hrun Hkeep Hcmd.
  pose proof (session_inv fuel tape hs sb pb rb cmds st Hfuel Hrun) as H.
  destruct (dispatch_inv fuel cmd st H Hfuel) as (st'' & Hd & H' & Hgrows).
  rewrite Hd in Hcmd. injection Hcmd as <-.
  destruct (Hgrows Hkeep) as [Hs Hl].
  assert (level st <= level st'') as Hv.
  { rewrite (inv_level st H), (inv_level st'' H').
    pose proof (Z.div_le_mono (lines st) (lines st'') 10). lia. }
  repeat split; try assumption.
  rewrite (inv_speed st H), (inv_speed st'' H'). lia.
Qed.

(** ** Instances of the further properties *)

(** X1 on the O piece at the bottom of the empty board. *)
Lemma merge_writes_piece_cells_witness :
  wfBoard emptyBoard /\
  exists b', merge emptyBoard (set_py (spawned KO) 18) = Ok b' /\ wfBoard b'.
Proof.
  split; [apply wfBoard_emptyBoard|].
  destruct (merge_writes_piece_cells emptyBoard (set_py (spawned KO) 18)
              wfBoard_emptyBoard) as (b' & Hm & Hwf & _).
  exists b'. auto.
Defined.

(** X2 on the O piece above the gap of [gapBoard]. *)
Lemma merge_keeps_locked_cells_witness :
  wfBoard gapBoard /\
  collide gapBoard (set_py (spawned KO) 18) = Ok false /\
  exists b', merge gapBoard (set_py (spawned KO) 18) = Ok b'.
Proof.
  split; [apply wfBoard_gapBoard|]. split; [reflexivity|].
  destruct (merge_keeps_locked_cells gapBoard (set_py (spawned KO) 18)
              wfBoard_gapBoard eq_refl) as (b' & Hm & _).
  exists b'. exact Hm.
Defined.

(** X4 on the board with two full rows on top. *)
Lemma clearLines_leaves_no_full_row_witness :
  wfBoard (board (set_board loadedState topFullBoard)) /\
  (2 * Z.to_nat ROWS <= 40)%nat /\
  exists st',
    clearLines 40 (set_board loadedState topFullBoard) = Ok st' /\
    Forall (fun row => ~ fullRow row) (board st').
Proof.
  assert (wfBoard (board (set_board loadedState topFullBoard))) as Hwf.
  { split; [reflexivity|]. repeat constructor. }
  split; [exact Hwf|]. split; [reflexivity|].
  destruct (clearLines_leaves_no_full_row 40
              (set_board loadedState topFullBoard) Hwf (le_n 40))
    as (st' & Hc & _ & Hnone & _).
  exists st'. auto.
Defined.

(** X5 on the O piece at its spawn position on the empty board. *)
Lemma computeGhost_rests_witness :
  length emptyBoard = Z.to_nat ROWS /\
  occupiedCell (matrix (spawned KO)) 0 1 /\
  (Z.to_nat (ROWS - py (spawned KO)) < 64)%nat /\
  collide emptyBoard (spawned KO) = Ok false /\
  exists g,
    computeGhost 64 emptyBoard (spawned KO) = Ok g /\
    collide emptyBoard g = Ok false.
Proof.
  assert (Z.to_nat (ROWS - py (spawned KO)) < 64)%nat as Hfuel
    by (vm_compute; lia).
  split; [reflexivity|]. split; [exact occupied_spawned_O|].
  split; [exact Hfuel|]. split; [reflexivity|].
  destruct (computeGhost_rests 64 emptyBoard (spawned KO) 0 1 eq_refl
              occupied_spawned_O Hfuel eq_refl)
    as (g & Hg & _ & _ & _ & _ & _ & Hfree & _).
  exists g. auto.
Defined.

(** X6 on the first piece of the sample session. *)
Lemma hardDrop_locks_at_ghost_witness :
  current startedState = Some (spawned KO) /\
  computeGhost 64 (board startedState) (spawned KO) =
    Ok (set_py (spawned KO) 18) /\
  hardDrop 64 startedState =
  lockPiece 64
    (set_score (set_current startedState (Some (set_py (spawned KO) 18)))
       (score startedState + (18 - py (spawned KO)) * 2)).
Proof.
  assert (computeGhost 64 (board startedState) (spawned KO) =
          Ok (set_py (spawned KO) 18)) as Hg by (vm_compute; reflexivity).
  split; [reflexivity|]. split; [exact Hg|].
  exact (hardDrop_locks_at_ghost 64 startedState (spawned KO)
           (set_py (spawned KO) 18) eq_refl Hg).
Defined.

(** X7 on the O piece completing the bottom row of [gapBoard]. *)
Lemma lock_ends_game_iff_spawn_blocked_witness :
  wfBoard (board gapState) /\
  current gapState = Some (set_py (spawned KO) 18) /\
  next gapState = Some (spawned KI) /\
  (2 * Z.to_nat ROWS <= 40)%nat /\
  gameOver gapState = false /\
  exists st', lockPiece 40 gapState = Ok st' /\ current st' = Some (spawned KI).
Proof.
  split; [apply wfBoard_gapBoard|]. split; [reflexivity|].
  split; [reflexivity|]. split; [reflexivity|]. split; [reflexivity|].
  destruct (lock_ends_game_iff_spawn_blocked 40 gapState
              (set_py (spawned KO) 18) (spawned KI)
              wfBoard_gapBoard eq_refl eq_refl (le_n 40) eq_refl)
    as (st' & Hl & Hc & _).
  exists st'. auto.
Defined.

(** X9 on the running game of the sample session, with the P key and
    then the Pause button. *)
Lemma pause_then_resume_restores_witness :
  running startedState = true /\ gameOver startedState = false /\
  runCommands 64 [KeyDown (mkKeyEvent KeyP false); PauseClick] startedState =
    Ok startedState.
Proof.
  split; [reflexivity|]. split; [reflexivity|].
  exact (proj2 (pause_then_resume_restores 64
                  (KeyDown (mkKeyEvent KeyP false)) PauseClick startedState
                  eq_refl eq_refl eq_refl Logic.I)).
Defined.

Lemma sample_fuel : (2 * Z.to_nat ROWS <= 64)%nat.
Proof. vm_compute. lia. Qed.

Lemma pausedSession_run :
  runCommands 64
    [StartClick; KeyDown (mkKeyEvent Space false);
     KeyDown (mkKeyEvent KeyP false)]
    (initState tapeO 0 false true true) = Ok pausedState.
Proof. vm_compute. reflexivity. Qed.

(** X10 on the sample session. *)
Lemma session_never_faults_witness :
  (2 * Z.to_nat ROWS <= 64)%nat /\
  exists st,
    runCommands 64
      [StartClick; KeyDown (mkKeyEvent Space false);
       KeyDown (mkKeyEvent KeyP false)]
      (initState tapeO 0 false true true) = Ok st.
Proof.
  split; [exact sample_fuel|].
  exact (session_never_faults 64 tapeO 0 false true true _ sample_fuel).
Defined.

(** X11 on the sample session. *)
Lemma session_board_has_no_full_row_witness :
  (2 * Z.to_nat ROWS <= 64)%nat /\
  wfBoard (board pausedState) /\
  Forall (fun row => ~ fullRow row) (board pausedState).
Proof.
  split; [exact sample_fuel|].
  exact (session_board_has_no_full_row 64 tapeO 0 false true true _
           pausedState sample_fuel pausedSession_run).
Defined.

(** X12 on the sample session. *)
Lemma session_piece_never_overlaps_witness :
  (2 * Z.to_nat ROWS <= 64)%nat /\
  running pausedState = true /\ gameOver pausedState = false /\
  exists cur nxt,
    current pausedState = Some cur /\ next pausedState = Some nxt /\
    pieceOk cur /\ pieceOk nxt /\ collide (board pausedState) cur = Ok false.
Proof.
  split; [exact sample_fuel|]. split; [reflexivity|]. split; [reflexivity|].
  exact (session_piece_never_overlaps 64 tapeO 0 false true true _
           pausedState sample_fuel pausedSession_run eq_refl eq_refl).
Defined.

(** X13 on the sample session. *)
Lemma session_level_and_speed_witness :
  (2 * Z.to_nat ROWS <= 64)%nat /\
  level pausedState = lines pausedState / 10 + 1.
Proof.
  split; [exact sample_fuel|].
  exact (proj1 (proj2 (proj2
           (session_level_and_speed 64 tapeO 0 false true true _
              pausedState sample_fuel pausedSession_run)))).
Defined.

(** X14 on the sample session. *)
Lemma session_bag_has_no_repeat_witness :
  (2 * Z.to_nat ROWS <= 64)%nat /\ NoDup (bag pausedState).
Proof.
  split; [exact sample_fuel|].
  exact (proj1 (session_bag_has_no_repeat 64 tapeO 0 false true true _
                  pausedState sample_fuel pausedSession_run)).
Defined.


(** X16 on the first piece of the sample session. *)
Lemma softDrop_moves_or_locks_witness :
  current startedState = Some (spawned KO) /\
  collide (board startedState) (set_py (spawned KO) (py (spawned KO) + 1)) =
    Ok false /\
  softDrop 64 startedState =
  Ok (updateHUD
        (set_score
           (set_current startedState
              (Some (set_py (spawned KO) (py (spawned KO) + 1))))
           (score startedState + 1))).
Proof.
  assert (collide (board startedState)
            (set_py (spawned KO) (py (spawned KO) + 1)) = Ok false) as Hfree
    by (vm_compute; reflexivity).
  split; [reflexivity|]. split; [exact Hfree|].
  exact (proj1 (softDrop_moves_or_locks 64 startedState (spawned KO) eq_refl)
           Hfree).
Defined.

(** X17 on the P key pressed during the pause of the sample session. *)
Lemma session_score_never_goes_down_witness :
  (2 * Z.to_nat ROWS <= 64)%nat /\
  keepsGame pausedState (KeyDown (mkKeyEvent KeyP false)) /\
  score pausedState <= score (togglePause pausedState).
Proof.
  split; [exact sample_fuel|].
  assert (keepsGame pausedState (KeyDown (mkKeyEvent KeyP false))) as Hkeep
    by (left; reflexivity).
  split; [exact Hkeep|].
  exact (proj1 (session_score_never_goes_down 64 tapeO 0 false true true _
                  pausedState (KeyDown (mkKeyEvent KeyP false))
                  (togglePause pausedState) sample_fuel pausedSession_run
                  Hkeep eq_refl)).
Defined.
